(** * pkg/experiment/querybackend/query_tree.go

    The tree query of the query backend: [queryTree], the executor that
    computes one block's contribution, and [treeAggregator], which folds
    the partial reports of many blocks into the final one.

    Go values are embedded as follows.  A pointer that may be nil is an
    [option]; an [error] interface value is an [option error] with [None]
    for nil; [[]byte] is a [list byte]; [int64] is [Z] (the file performs
    no arithmetic on it).  A call that can end in a run-time panic returns
    a [result].  The collaborators whose code lives in other packages
    (the tree engine of [pkg/model], the symbol resolver, the parquet
    iterators) are parameters. *)

From Stdlib Require Import ZArith List String Strings.Byte Bool Permutation Lia.
From stdpp Require gmap strings.
Import ListNotations.
Local Open Scope string_scope.
Local Open Scope list_scope.
Local Open Scope Z_scope.

(** ** Go values *)

(** Error values.  [errorString] is what a collaborator returns,
    [withMessage] is [errors.Wrapf], [nonNilMultiError] is dskit's
    [multierror] with at least one member. *)
#[warnings="-register-all"] Inductive error : Type :=
| errorString (s : string)
| withMessage (cause : error) (msg : string)
| nonNilMultiError (es : list error).

(** The outcome of a call: it returns, or the goroutine panics. *)
Inductive result (A : Type) : Type :=
| Return (a : A)
| Panic (v : string).
Arguments Return {A} a.
Arguments Panic {A} v.

(** The run-time error of reading a field through a nil pointer. *)
Definition nilDereference : string :=
  "invalid memory address or nil pointer dereference".

Definition returned {A : Type} (r : result A) : bool :=
  match r with Return _ => true | Panic _ => false end.

(** ** querybackendv1: the messages the file touches *)

(** Modelled from the spec: the messages of [querybackendv1], generated
    code that is kept elsewhere in the repository.  The spec describes a
    report as a union keyed by its kind, the tree kind carrying the echoed
    query and the serialized tree; the fields below are those the file
    reads or sets.  [TreeQuery]: [MaxNodes] is the only field read. *)
Record TreeQuery : Type := { MaxNodes : Z }.

(** [TreeReport{Query *TreeQuery; Tree []byte}]. *)
Record TreeReport : Type := {
  TreeReport_Query : option TreeQuery;
  TreeReport_Tree : list byte
}.

(** [Report]: of its payload pointers only [Tree] is read or set here; a
    report of another kind has [Tree == nil]. *)
Record Report : Type := { Report_Tree : option TreeReport }.

(** [Query]: the tree parameters are [query.Tree]. *)
Record Query : Type := { Query_Tree : option TreeQuery }.

(** Modelled from the spec: [CloneVT] of a [*TreeQuery], the echo of the
    query: a deep copy, nil for nil. *)
Definition CloneVT (m : option TreeQuery) : option TreeQuery :=
  match m with
  | None => None
  | Some q => Some {| MaxNodes := MaxNodes q |}
  end.

(** Modelled from the spec: [GetMaxNodes] of a [*TreeQuery], the
    requested maximum number of nodes; the generated getter gives 0 on
    nil. *)
Definition GetMaxNodes (m : option TreeQuery) : Z :=
  match m with
  | None => 0
  | Some q => MaxNodes q
  end.

(** A report of the tree kind. *)
Definition treeReport (r : TreeReport) : Report :=
  {| Report_Tree := Some r |}.

(** The tree parameters a report carries, [report.Tree.Query]; none when
    the report has no tree payload. *)
Definition reportQuery (r : Report) : option TreeQuery :=
  match Report_Tree r with
  | Some tr => TreeReport_Query tr
  | None => None
  end.

(** The parameters of the first of a list of tree reports. *)
Definition firstQuery (rs : list TreeReport) : option TreeQuery :=
  match rs with
  | [] => None
  | r :: _ => TreeReport_Query r
  end.

(** ** pkg/model: the tree engine *)

(** The operations of [model.Tree] that the file calls.  Their code is in
    another package; they are taken as parameters. *)
Class TreeEngine : Type := {
  Tree : Type;
  (** [new(Tree)], the tree without nodes *)
  newTree : Tree;
  (** [UnmarshalTree(b)] *)
  UnmarshalTree : list byte -> Tree + error;
  (** [dst.Merge(src)] *)
  Merge : Tree -> Tree -> Tree;
  (** [t.Bytes(maxNodes)] *)
  Bytes : Tree -> Z -> list byte
}.

(** The engine merges commutatively and associatively. *)
Class TreeEngineLaws (E : TreeEngine) : Prop := {
  Merge_comm : forall t u : Tree, Merge t u = Merge u t;
  Merge_assoc : forall t u v : Tree, Merge (Merge t u) v = Merge t (Merge u v)
}.

Section Aggregator.

Context {E : TreeEngine}.

(** Modelled from the spec: [model.TreeMerger], whose code is in
    [pkg/model].  The spec gives it [new()], [mergeSerializedTree(bytes)
    -> error] and [tree() -> Tree]: it holds the accumulated tree, a
    payload that does not decode is refused and leaves it as it was. *)
Record TreeMerger : Type := { merged : Tree }.

Definition NewTreeMerger : TreeMerger := {| merged := newTree |}.

Definition MergeTreeBytes (m : TreeMerger) (b : list byte)
  : TreeMerger * option error :=
  match UnmarshalTree b with
  | inr e => (m, Some e)
  | inl t => ({| merged := Merge (merged m) t |}, None)
  end.

Definition TreeMerger_Tree (m : TreeMerger) : Tree := merged m.

(** ** treeAggregator *)

(** [init] is the [sync.Once]: [true] once [Do] has run.  [query] and
    [tree] are pointers, nil in a new aggregator. *)
Record treeAggregator : Type := {
  init : bool;
  query : option TreeQuery;
  tree : option TreeMerger
}.

(** The type of [*querybackendv1.InvokeRequest]; its declaration is not
    needed, the factory does not look at it. *)
Context {InvokeRequest : Type}.

(** [func newTreeAggregator(_ *InvokeRequest) aggregator { return new(treeAggregator) }] *)
Definition newTreeAggregator (_ : InvokeRequest) : treeAggregator :=
  {| init := false; query := None; tree := None |}.

(** The function handed to [a.init.Do]:
    [a.tree = model.NewTreeMerger(); a.query = r.Query.CloneVT()].
    With [r == nil] the second statement panics after the first took
    effect. *)
Definition initOnce (a : treeAggregator) (r : option TreeReport)
  : treeAggregator * result unit :=
  let a1 := {| init := init a; query := query a; tree := Some NewTreeMerger |} in
  match r with
  | None => (a1, Panic nilDereference)
  | Some tr =>
      ({| init := init a1; query := CloneVT (TreeReport_Query tr); tree := tree a1 |},
       Return tt)
  end.

(** [a.init.Do(f)]: [f] runs on the first call only, and the [Once] is
    spent when [f] returns or panics. *)
Definition init_Do (a : treeAggregator) (r : option TreeReport)
  : treeAggregator * result unit :=
  if init a then (a, Return tt)
  else
    let '(a1, d) := initOnce a r in
    ({| init := true; query := query a1; tree := tree a1 |}, d).

(** [func (a *treeAggregator) aggregate(report *Report) error]: the
    aggregator after the call and what the call did. *)
Definition aggregate (a : treeAggregator) (report : Report)
  : treeAggregator * result (option error) :=
  let r := Report_Tree report in
  let '(a1, d) := init_Do a r in
  match d with
  | Panic v => (a1, Panic v)
  | Return _ =>
      match tree a1, r with
      | Some m, Some tr =>
          let '(m', e) := MergeTreeBytes m (TreeReport_Tree tr) in
          ({| init := init a1; query := query a1; tree := Some m' |}, Return e)
      | _, _ => (a1, Panic nilDereference)
      end
  end.

(** [func (a *treeAggregator) build() *Report].  [a.tree.Tree()] reads the
    tree accumulated in the merger behind [a.tree]; behind a nil pointer
    there is none to read, which is a nil dereference. *)
Definition build (a : treeAggregator) : result Report :=
  match tree a with
  | None => Panic nilDereference
  | Some m =>
      Return {| Report_Tree := Some {|
        TreeReport_Query := query a;
        TreeReport_Tree := Bytes (TreeMerger_Tree m) (GetMaxNodes (query a)) |} |}
  end.

(** The aggregator after [aggregate] was called on each report in turn. *)
Definition aggregateAll (a : treeAggregator) (reports : list Report)
  : treeAggregator :=
  fold_left (fun a r => fst (aggregate a r)) reports a.

(** What each of the calls returned. *)
Fixpoint aggregateResults (a : treeAggregator) (reports : list Report)
  : list (result (option error)) :=
  match reports with
  | [] => []
  | r :: rs => snd (aggregate a r) :: aggregateResults (fst (aggregate a r)) rs
  end.

(** The serialized tree of a built report. *)
Definition serializedTree (r : result Report) : result (list byte) :=
  match r with
  | Panic v => Panic v
  | Return rep =>
      match Report_Tree rep with
      | Some tr => Return (TreeReport_Tree tr)
      | None => Return []
      end
  end.

(** The trees of the payloads that decode, in order. *)
Fixpoint decoded (rs : list TreeReport) : list Tree :=
  match rs with
  | [] => []
  | r :: rs' =>
      match UnmarshalTree (TreeReport_Tree r) with
      | inl t => t :: decoded rs'
      | inr _ => decoded rs'
      end
  end.

(** [Merge] folded over a list of trees, from the left. *)
Definition mergeAll (t : Tree) (ts : list Tree) : Tree := fold_left Merge ts t.

End Aggregator.

(** ** queryTree *)

(** The calls [queryTree] makes on the resources it acquires, in the
    order it makes them. *)
Inductive event : Type :=
| OpenEntries
| CloseEntries
| OpenProfiles
| CloseProfiles
| NewResolver
| AddSamples (partition : Z) (stacktraceIDs values : list Z)
| ResolverTree
| Release.

(** A computation returns a value and the calls it made. *)
Definition M (A : Type) : Type := A * list event.

Definition ret {A : Type} (a : A) : M A := (a, []).

Definition bind {A B : Type} (m : M A) (k : A -> M B) : M B :=
  let '(a, t1) := m in
  let '(b, t2) := k a in
  (b, t1 ++ t2).

Definition emit (e : event) : M unit := (tt, [e]).

Notation "x <- m ;; k" := (bind m (fun x => k))
  (at level 61, m at next level, right associativity).
Notation "m ;;; k" := (bind m (fun _ => k))
  (at level 61, right associativity).

Definition isRelease (e : event) : bool :=
  match e with Release => true | _ => false end.

Definition isNewResolver (e : event) : bool :=
  match e with NewResolver => true | _ => false end.

Definition usesResolver (e : event) : bool :=
  match e with
  | NewResolver | AddSamples _ _ _ | ResolverTree => true
  | _ => false
  end.

Definition count (p : event -> bool) (t : list event) : nat :=
  List.length (filter p t).

(** *** github.com/grafana/dskit: runutil and multierror *)

(** [errors.Wrapf(err, msg)]: nil for nil. *)
Definition Wrapf (e : option error) (msg : string) : option error :=
  match e with
  | None => None
  | Some c => Some (withMessage c msg)
  end.

(** [MultiError.Add]: nil is skipped, a multi-error is flattened. *)
Definition MultiError_Add (es : list error) (e : option error) : list error :=
  match e with
  | None => es
  | Some (nonNilMultiError l) => es ++ l
  | Some x => es ++ [x]
  end.

(** [MultiError.Err]: nil when nothing was added. *)
Definition MultiError_Err (es : list error) : option error :=
  match es with
  | [] => None
  | _ => Some (nonNilMultiError es)
  end.

(** [runutil.CloseWithErrCapture(err, closer, msg)], given what
    [closer.Close()] returned: the value it stores in [*err]. *)
Definition CloseWithErrCapture (err closed : option error) (msg : string)
  : option error :=
  MultiError_Err (MultiError_Add (MultiError_Add [] err) (Wrapf closed msg)).

Section Executor.

Context {E : TreeEngine}.

(** One element of the repeated row iterator: [p.Row.Partition],
    [p.Values[0]] (the stack trace ids) and [p.Values[1]] (the values). *)
Record RepeatedRow : Type := {
  Partition : Z;
  StacktraceIDs : list Z;
  SampleValues : list Z
}.

(** What the block gives when it is read: the error of
    [profileEntryIterator(q)], the error of resolving the sample columns
    against the schema of the profiles, the rows the repeated row
    iterator delivers before [Next()] is false, its [Err()], and the tree
    (or error) of [resolver.Tree()] for the samples added to a resolver
    over [q.ds.Symbols()]. *)
Record Dataset : Type := {
  entriesError : option error;
  schemaError : option error;
  rows : list RepeatedRow;
  rowsError : option error;
  symbols : list RepeatedRow -> Tree + error
}.

(** What closing the two iterators reports in one run. *)
Record Closing : Type := {
  closeEntries : option error;
  closeProfiles : option error
}.

(** [queryContext]: the block and the run's resources. *)
Record queryContext : Type := {
  ds : Dataset;
  closing : Closing
}.

Inductive closer : Type := entries | profiles.

(** [c.Close()] *)
Definition Close (q : queryContext) (c : closer) : M (option error) :=
  match c with
  | entries => emit CloseEntries ;;; ret (closeEntries (closing q))
  | profiles => emit CloseProfiles ;;; ret (closeProfiles (closing q))
  end.

(** [profileEntryIterator(q)]: the iterator is open when the error is nil. *)
Definition profileEntryIterator (q : queryContext) : M (option error) :=
  match entriesError (ds q) with
  | Some e => ret (Some e)
  | None => emit OpenEntries ;;; ret None
  end.

(** Modelled from the spec: the symbol resolver of [pkg/phlaredb/symdb],
    with [new], [addSample], [tree() -> (Tree, error)] and [release()].
    A resolver is the samples added to it so far; what [tree()] makes of
    them is the block's [symbols]. *)
Definition resolver : Type := list RepeatedRow.

(** [for profiles.Next() { p := profiles.At(); resolver.AddSamplesFromParquetRow(...) }] *)
Fixpoint addRows (ps : list RepeatedRow) (r : resolver) : M resolver :=
  match ps with
  | [] => ret r
  | p :: ps' =>
      emit (AddSamples (Partition p) (StacktraceIDs p) (SampleValues p)) ;;;
      addRows ps' (r ++ [p])
  end.

(** The calls of that loop. *)
Definition addSamplesCalls (ps : list RepeatedRow) : list event :=
  map (fun p => AddSamples (Partition p) (StacktraceIDs p) (SampleValues p)) ps.

(** [resolver.Tree()] *)
Definition resolver_Tree (q : queryContext) (r : resolver) : M (Tree + error) :=
  emit ResolverTree ;;; ret (symbols (ds q) r).

(** A deferred call.  Both [CloseWithErrCapture] calls are given [&err],
    the address of the local variable [err]. *)
Inductive deferredCall : Type :=
| deferCloseWithErrCapture (c : closer) (msg : string)
| deferRelease.

(** The frame of [queryTree] at a [return]: its local [err] and the
    deferred calls, the last deferred first. *)
Record frame : Type := {
  err : option error;
  defers : list deferredCall
}.

(** The messages of the two deferred [CloseWithErrCapture] calls. *)
Definition closeEntriesMsg : string := "failed to close profile entry iterator".
Definition closeProfilesMsg : string := "failed to close profile stream".

(** The results of [queryTree].  They are unnamed in the signature
    of the function: a [return] statement stores them before the
    deferred calls run, and no deferred call can reach them. *)
Definition results : Type := (option Report * option error)%type.

(** The body of [queryTree] down to the [return] statement that ends it:
    the frame at that point and the results the statement stores. *)
Definition queryTreeBody (q : queryContext) (query : Query)
  : M (frame * results) :=
  err0 <- profileEntryIterator q ;;
  match err0 with
  | Some _ => ret ({| err := err0; defers := [] |}, (None, err0))
  | None =>
  let d1 := [deferCloseWithErrCapture entries closeEntriesMsg] in
  let err1 := schemaError (ds q) in
  match err1 with
  | Some _ => ret ({| err := err1; defers := d1 |}, (None, err1))
  | None =>
  emit OpenProfiles ;;;
  let d2 := deferCloseWithErrCapture profiles closeProfilesMsg :: d1 in
  emit NewResolver ;;;
  let d3 := deferRelease :: d2 in
  r <- addRows (rows (ds q)) [] ;;
  let err2 := rowsError (ds q) in
  match err2 with
  | Some _ => ret ({| err := err2; defers := d3 |}, (None, err2))
  | None =>
  t <- resolver_Tree q r ;;
  match t with
  | inr e => ret ({| err := Some e; defers := d3 |}, (None, Some e))
  | inl tree =>
      let resp := {| Report_Tree := Some {|
        TreeReport_Query := CloneVT (Query_Tree query);
        TreeReport_Tree := Bytes tree (GetMaxNodes (Query_Tree query)) |} |} in
      ret ({| err := None; defers := d3 |}, (Some resp, None))
  end end end end.

(** One deferred call, on the local [err]. *)
Definition runDeferred (q : queryContext) (d : deferredCall) (e : option error)
  : M (option error) :=
  match d with
  | deferCloseWithErrCapture c msg =>
      closed <- Close q c ;;
      ret (CloseWithErrCapture e closed msg)
  | deferRelease => emit Release ;;; ret e
  end.

(** The deferred calls of a frame, the last deferred first. *)
Fixpoint runDefers (q : queryContext) (l : list deferredCall) (e : option error)
  : M (option error) :=
  match l with
  | [] => ret e
  | d :: l' => e' <- runDeferred q d e ;; runDefers q l' e'
  end.

(** A call of [queryTree] to its end: the results its [return] stored
    and the value the local [err] holds when the last deferred call is
    done. *)
Definition queryTreeCall (q : queryContext) (query : Query)
  : M (results * option error) :=
  fr <- queryTreeBody q query ;;
  e <- runDefers q (defers (fst fr)) (err (fst fr)) ;;
  ret (snd fr, e).

(** The report of the last statement of [queryTree] for a resolved tree. *)
Definition treeResponse (query : Query) (t : Tree) : Report :=
  {| Report_Tree := Some {|
       TreeReport_Query := CloneVT (Query_Tree query);
       TreeReport_Tree := Bytes t (GetMaxNodes (Query_Tree query)) |} |}.

(** The results of the [return] statement a block leads to, read off the
    four tests of [queryTree] in their order. *)
Definition resultsFor (d : Dataset) (query : Query) : results :=
  match entriesError d with
  | Some e => (None, Some e)
  | None =>
  match schemaError d with
  | Some e => (None, Some e)
  | None =>
  match rowsError d with
  | Some e => (None, Some e)
  | None =>
  match symbols d (rows d) with
  | inr e => (None, Some e)
  | inl t => (Some (treeResponse query t), None)
  end end end end.

(** [func queryTree(q, query)], with results [*Report] and [error]. *)
Definition queryTree (q : queryContext) (query : Query) : M results :=
  c <- queryTreeCall q query ;;
  ret (fst c).

End Executor.

(** ** A tree engine: trees of one call path *)

Module PathTree.

(** Modelled from the spec: [pkg/model]'s tree, whose code is absent,
    cut down to the trees of a single call path.  The spec asks for a
    hierarchical weighted structure of call frames with a commutative and
    associative merge, a serialization that can be read back, and a
    truncated serialization that never returns more than [maxNodes] nodes
    and returns the whole tree when [maxNodes] is at least its size.  A
    tree is the list of the weights of its frames, the root first; each
    weight is written as eight bytes, the low byte first. *)
Definition t : Type := list Z.

Fixpoint merge (a b : t) : t :=
  match a, b with
  | [], _ => b
  | _, [] => a
  | x :: a', y :: b' => (x + y) :: merge a' b'
  end.

Definition byteOf (n : Z) : byte :=
  match Byte.of_N (Z.to_N (n mod 256)) with
  | Some b => b
  | None => x00
  end.

Definition putUint64 (w : Z) : list byte :=
  map (fun i => byteOf (Z.shiftr w (8 * Z.of_nat i))) (seq 0 8).

Definition uint64 (bs : list byte) : Z :=
  fold_right (fun b acc => Z.of_N (Byte.to_N b) + 256 * acc) 0 bs.

Definition bytes (tr : t) (maxNodes : Z) : list byte :=
  flat_map putUint64 (firstn (Z.to_nat maxNodes) tr).

Definition malformed : error := errorString "malformed tree".

Fixpoint unmarshal (b : list byte) : t + error :=
  match b with
  | [] => inl []
  | b0 :: b1 :: b2 :: b3 :: b4 :: b5 :: b6 :: b7 :: rest =>
      match unmarshal rest with
      | inl tr => inl (uint64 [b0; b1; b2; b3; b4; b5; b6; b7] :: tr)
      | inr e => inr e
      end
  | _ => inr malformed
  end.

Definition engine : TreeEngine :=
  {| Tree := t;
     newTree := [];
     UnmarshalTree := unmarshal;
     Merge := merge;
     Bytes := bytes |}.

(** Block A: the path root, f1 with 10 samples; block B: the root alone
    with 5. *)
Definition treeA : t := [10; 10].
Definition treeB : t := [5].

(** The partial reports of the two blocks for a query of at most 10
    nodes. *)
Definition reportA : TreeReport :=
  {| TreeReport_Query := Some {| MaxNodes := 10 |};
     TreeReport_Tree := bytes treeA 10 |}.

Definition reportB : TreeReport :=
  {| TreeReport_Query := Some {| MaxNodes := 10 |};
     TreeReport_Tree := bytes treeB 10 |}.

(** The report of block B when the query it echoes asks for 1 node. *)
Definition reportB1 : TreeReport :=
  {| TreeReport_Query := Some {| MaxNodes := 1 |};
     TreeReport_Tree := bytes treeB 10 |}.

(** A report whose payload stops in the middle of a weight. *)
Definition reportCut : TreeReport :=
  {| TreeReport_Query := Some {| MaxNodes := 7 |};
     TreeReport_Tree := [x01; x02; x03] |}.

(** A report of another kind: no tree payload. *)
Definition reportOther : Report := {| Report_Tree := None |}.

(** A block with two rows whose symbols resolve to [treeA]. *)
Definition rowsA : list RepeatedRow :=
  [ {| Partition := 1; StacktraceIDs := [4; 9]; SampleValues := [3; 7] |};
    {| Partition := 2; StacktraceIDs := [4]; SampleValues := [10] |} ].

Definition blockA : Dataset (E := engine) :=
  {| entriesError := None;
     schemaError := None;
     rows := rowsA;
     rowsError := None;
     symbols := fun _ => @inl (@Tree engine) error treeA |}.

Definition truncated : error := errorString "truncated row group".

(** The same block with a row group that ends early. *)
Definition blockCut : Dataset (E := engine) :=
  {| entriesError := None;
     schemaError := None;
     rows := firstn 1 rowsA;
     rowsError := Some truncated;
     symbols := fun _ => @inl (@Tree engine) error treeA |}.

Definition closingFine : Closing :=
  {| closeEntries := None; closeProfiles := None |}.

Definition closeFailed : error := errorString "file already closed".

Definition closingFails : Closing :=
  {| closeEntries := Some closeFailed; closeProfiles := None |}.

Definition queryA : Query := {| Query_Tree := Some {| MaxNodes := 1 |} |}.

(** A run over block A in which closing the entry iterator fails, and a
    run over the cut block. *)
Definition runA : queryContext (E := engine) :=
  {| ds := blockA; closing := closingFails |}.

Definition runCut : queryContext (E := engine) :=
  {| ds := blockCut; closing := closingFine |}.

End PathTree.

(** ** Acquiring and giving back *)

(** The calls that acquire a resource and the calls that give one back. *)
Definition isAcquire (e : event) : bool :=
  match e with
  | OpenEntries | OpenProfiles | NewResolver => true
  | _ => false
  end.

Definition isGiveBack (e : event) : bool :=
  match e with
  | CloseEntries | CloseProfiles | Release => true
  | _ => false
  end.

(** The call that acquired what a call gives back. *)
Definition acquiredBy (e : event) : event :=
  match e with
  | CloseEntries => OpenEntries
  | CloseProfiles => OpenProfiles
  | Release => NewResolver
  | _ => e
  end.

Definition isAddSamples (e : event) : bool :=
  match e with AddSamples _ _ _ => true | _ => false end.

(** Runs that end at each of the early returns of [queryTree]. *)
Module Runs.

Definition noEntries : error := errorString "profiles section not found".
Definition noColumn : error := errorString "column StacktraceID not found".
Definition noSymbols : error := errorString "unknown partition".

Definition runNoEntries : queryContext (E := PathTree.engine) :=
  {| ds := {| entriesError := Some noEntries;
              schemaError := None;
              rows := PathTree.rowsA;
              rowsError := None;
              symbols := fun _ => @inl (@Tree PathTree.engine) error PathTree.treeA |};
     closing := PathTree.closingFine |}.

Definition runNoColumn : queryContext (E := PathTree.engine) :=
  {| ds := {| entriesError := None;
              schemaError := Some noColumn;
              rows := PathTree.rowsA;
              rowsError := None;
              symbols := fun _ => @inl (@Tree PathTree.engine) error PathTree.treeA |};
     closing := PathTree.closingFine |}.

Definition runNoSymbols : queryContext (E := PathTree.engine) :=
  {| ds := {| entriesError := None;
              schemaError := None;
              rows := PathTree.rowsA;
              rowsError := None;
              symbols := fun _ => @inr (@Tree PathTree.engine) error noSymbols |};
     closing := PathTree.closingFails |}.

End Runs.

(** * raftleader: the health observer of the raft leader *)

Module raftleader.

Local Notation "m !! k" := (base.lookup k m) (at level 20).

(** [raft.RaftState] of hashicorp/raft, a [uint32] counted from
    [Follower]. *)
Inductive RaftState : Type := Follower | Candidate | Leader | Shutdown.

Definition RaftState_uint32 (s : RaftState) : Z :=
  match s with Follower => 0 | Candidate => 1 | Leader => 2 | Shutdown => 3 end.

(** [s == t] on raft states. *)
Definition RaftState_eqb (s t : RaftState) : bool :=
  RaftState_uint32 s =? RaftState_uint32 t.

(** [grpc_health_v1.HealthCheckResponse_ServingStatus]. *)
Inductive ServingStatus : Type :=
| UNKNOWN
| SERVING
| NOT_SERVING
| SERVICE_UNKNOWN.

(** A line written through go-kit's [log]: its level, the [service] its
    logger was made with, the message, and the status where one is
    given. *)
Inductive logLine : Type :=
| debugLine (service msg : string)
| infoLine (service msg : string) (status : ServingStatus).

(** [raftService]: the fields that tell one service from another.  A
    [*raft.Raft] is the identity of a raft node, a number; [observer] is
    the identifier of the [*raft.Observer], 0 while the field is nil.
    The channels [c], [stop] and [done] are what [run] receives and what
    it returns. *)
Record raftService : Type := {
  service : string;
  raft : nat;
  observer : nat
}.

(** [Metrics{status prometheus.Gauge}]: the value the gauge was last set
    to.  The gauge is set from a [uint32], which [float64] holds exactly. *)
Record Metrics : Type := { Metrics_status : Z }.

(** [HealthObserver]: [metrics] is a pointer; [registered] is the map
    from [serviceKey{raft, service}] to the service. *)
Record HealthObserver : Type := {
  metrics : option Metrics;
  registered : gmap.gmap (nat * string) raftService
}.

(** What the observer acts on: the state of every raft node, the
    observers registered with the raft nodes (by node and identifier),
    the counter [raft.NewObserver] draws identifiers from, the statuses
    the health service holds, and the lines logged. *)
Record world : Type := {
  raftState : nat -> RaftState;
  raftObservers : gmap.gmap (nat * nat) unit;
  nextObserverID : nat;
  servingStatus : gmap.gmap string ServingStatus;
  logged : list logLine
}.

Definition state : Type := (HealthObserver * world)%type.

(** [func NewRaftLeaderHealthObserver(hs, logger, m) *HealthObserver] *)
Definition NewRaftLeaderHealthObserver (m : option Metrics) : HealthObserver :=
  {| metrics := m; registered := base.empty |}.

(** [level.Debug(logger).Log(...)] and [level.Info(logger).Log(...)] *)
Definition Log (l : logLine) (w : world) : world :=
  {| raftState := raftState w;
     raftObservers := raftObservers w;
     nextObserverID := nextObserverID w;
     servingStatus := servingStatus w;
     logged := logged w ++ [l] |}.

(** [server.SetServingStatus(service, status)] *)
Definition SetServingStatus (s : string) (status : ServingStatus) (w : world)
  : world :=
  {| raftState := raftState w;
     raftObservers := raftObservers w;
     nextObserverID := nextObserverID w;
     servingStatus := base.insert s status (servingStatus w);
     logged := logged w |}.

(** [raft.NewObserver(...)]: the next identifier. *)
Definition NewObserver (w : world) : nat * world :=
  (S (nextObserverID w),
   {| raftState := raftState w;
      raftObservers := raftObservers w;
      nextObserverID := S (nextObserverID w);
      servingStatus := servingStatus w;
      logged := logged w |}).

(** [r.RegisterObserver(or)] *)
Definition RegisterObserver (r id : nat) (w : world) : world :=
  {| raftState := raftState w;
     raftObservers := base.insert (r, id) tt (raftObservers w);
     nextObserverID := nextObserverID w;
     servingStatus := servingStatus w;
     logged := logged w |}.

(** [r.DeregisterObserver(or)] *)
Definition DeregisterObserver (r id : nat) (w : world) : world :=
  {| raftState := raftState w;
     raftObservers := base.delete (r, id) (raftObservers w);
     nextObserverID := nextObserverID w;
     servingStatus := servingStatus w;
     logged := logged w |}.

(** [func (svc *raftService) updateStatus()].  [svc.hs.metrics.status]
    reads through [metrics]. *)
Definition updateStatus (svc : raftService) (st : state) : state * result unit :=
  let '(hs, w) := st in
  let status :=
    if RaftState_eqb (raftState w (raft svc)) Leader then SERVING else NOT_SERVING in
  match metrics hs with
  | None => (st, Panic nilDereference)
  | Some _ =>
      let hs1 :=
        {| metrics := Some {| Metrics_status := RaftState_uint32 (raftState w (raft svc)) |};
           registered := registered hs |} in
      let w1 := Log (infoLine (service svc) "updating health status" status) w in
      ((hs1, SetServingStatus (service svc) status w1), Return tt)
  end.

(** What the goroutine of a service receives: a value on [svc.c], or the
    closing of [svc.stop]. *)
Inductive message : Type := observation | stop.

(** Where [run] is: blocked in its [select], or returned with [svc.done]
    closed. *)
Inductive goroutine : Type := waiting | exited.

(** [func (svc *raftService) run()], on the messages its [select]
    receives, in the order it takes them. *)
Fixpoint run (svc : raftService) (msgs : list message) (st : state)
  : state * result goroutine :=
  match msgs with
  | [] => (st, Return waiting)
  | observation :: rest =>
      let '(st1, r) := updateStatus svc st in
      match r with
      | Panic v => (st1, Panic v)
      | Return _ => run svc rest st1
      end
  | stop :: _ =>
      let '(hs, w) := st in
      let w1 := Log (debugLine (service svc) "deregistering health check") w in
      let w2 := SetServingStatus (service svc) NOT_SERVING w1 in
      ((hs, DeregisterObserver (raft svc) (observer svc) w2), Return exited)
  end.

(** [func (hs *HealthObserver) Register(r *raft.Raft, service string)].
    The goroutine started by [go svc.run()] waits in its [select]. *)
Definition Register (r : nat) (s : string) (st : state) : state * result unit :=
  let '(hs, w) := st in
  let k := (r, s) in
  match registered hs !! k with
  | Some _ => (st, Return tt)
  | None =>
      let svc := {| service := s; raft := r; observer := 0 |} in
      let w1 := Log (debugLine s "registering health check") w in
      let '((hs2, w2), res) := updateStatus svc (hs, w1) in
      match res with
      | Panic v => ((hs2, w2), Panic v)
      | Return _ =>
          let '(id, w3) := NewObserver w2 in
          let svc1 := {| service := s; raft := r; observer := id |} in
          let w4 := RegisterObserver r id w3 in
          (({| metrics := metrics hs2;
               registered := base.insert k svc1 (registered hs2) |}, w4),
           Return tt)
      end
  end.

(** [func (hs *HealthObserver) Deregister(r *raft.Raft, service string)].
    After [close(svc.stop)] the call waits for [svc.done]; [pending] is
    the number of observations the goroutine takes from [svc.c] before
    its [select] takes the stop. *)
Definition Deregister (r : nat) (s : string) (pending : nat) (st : state)
  : state * result unit :=
  let '(hs, w) := st in
  let k := (r, s) in
  let found := registered hs !! k in
  let hs1 := {| metrics := metrics hs; registered := base.delete k (registered hs) |} in
  match found with
  | None => ((hs1, w), Return tt)
  | Some svc =>
      let '(st2, res) := run svc (repeat observation pending ++ [stop]) (hs1, w) in
      match res with
      | Panic v => (st2, Panic v)
      | Return _ => (st2, Return tt)
      end
  end.

(** The status [updateStatus] hands to the health service for a raft
    state. *)
Definition statusFor (s : RaftState) : ServingStatus :=
  if RaftState_eqb s Leader then SERVING else NOT_SERVING.

(** What can happen to an observer: a call of [Register] or
    [Deregister], the goroutine of a registered service taking an
    observation, a raft node changing state. *)
Inductive action : Type :=
| callRegister (r : nat) (s : string)
| callDeregister (r : nat) (s : string) (pending : nat)
| takeObservation (r : nat) (s : string)
| raftChanges (r : nat) (to : RaftState).

Definition setRaftState (r : nat) (to : RaftState) (w : world) : world :=
  {| raftState := fun r' => if Nat.eqb r' r then to else raftState w r';
     raftObservers := raftObservers w;
     nextObserverID := nextObserverID w;
     servingStatus := servingStatus w;
     logged := logged w |}.

Definition perform (st : state) (a : action) : state :=
  match a with
  | callRegister r s => fst (Register r s st)
  | callDeregister r s pending => fst (Deregister r s pending st)
  | takeObservation r s =>
      match registered (fst st) !! (r, s) with
      | Some svc => fst (run svc [observation] st)
      | None => st
      end
  | raftChanges r to => (fst st, setRaftState r to (snd st))
  end.

Definition performAll (st : state) (l : list action) : state :=
  fold_left perform l st.

(** What [Register] and [Deregister] keep between the map of the
    observer and the raft nodes: a registered service is filed under its
    own raft node and name, and there are metrics when a service is
    registered; the observers of two registered services differ, and
    none is beyond the counter; the observers registered with the raft
    nodes are those of the registered services. *)
Definition consistent (st : state) : Prop :=
  (forall r s svc, registered (fst st) !! (r, s) = Some svc ->
     raft svc = r /\ service svc = s
     /\ (observer svc <= nextObserverID (snd st))%nat
     /\ metrics (fst st) <> None)
  /\ (forall k1 k2 svc1 svc2,
        registered (fst st) !! k1 = Some svc1 ->
        registered (fst st) !! k2 = Some svc2 ->
        observer svc1 = observer svc2 -> k1 = k2)
  /\ (forall r id,
        raftObservers (snd st) !! (r, id) = Some tt <->
        exists s svc, registered (fst st) !! (r, s) = Some svc /\ observer svc = id).

(** A world in which no observer is registered yet. *)
Definition quiet (states : nat -> RaftState) : world :=
  {| raftState := states;
     raftObservers := base.empty;
     nextObserverID := 0;
     servingStatus := base.empty;
     logged := [] |}.

(** Two raft nodes, the first one the leader. *)
Definition twoNodes (r : nat) : RaftState :=
  if Nat.eqb r 1 then Leader else Follower.

Definition started : state :=
  (NewRaftLeaderHealthObserver (Some {| Metrics_status := 0 |}), quiet twoNodes).

Definition startedWithoutMetrics : state :=
  (NewRaftLeaderHealthObserver None, quiet twoNodes).

End raftleader.

(** * Properties of the aggregator *)

Lemma CloneVT_eq (m : option TreeQuery) : CloneVT m = m.
Proof. destruct m as [[n]|]; reflexivity. Qed.

Lemma GetMaxNodes_CloneVT (m : option TreeQuery) :
  GetMaxNodes (CloneVT m) = GetMaxNodes m.
Proof. now rewrite CloneVT_eq. Qed.

Section AggregatorFacts.

Context {E : TreeEngine} {InvokeRequest : Type}.

Implicit Types (a : treeAggregator) (r : Report) (tr : TreeReport).

Lemma treeAggregator_eta a :
  {| init := init a; query := query a; tree := tree a |} = a.
Proof. now destruct a. Qed.

(** The first call on a tree report: the [Once] fires, captures the
    parameters and the payload is merged into a new merger. *)
Lemma aggregate_first a tr :
  init a = false ->
  aggregate a (treeReport tr) =
    ({| init := true;
        query := CloneVT (TreeReport_Query tr);
        tree := Some (fst (MergeTreeBytes NewTreeMerger (TreeReport_Tree tr))) |},
     Return (snd (MergeTreeBytes NewTreeMerger (TreeReport_Tree tr)))).
Proof.
  intros Hi. unfold aggregate, init_Do, initOnce. rewrite Hi. simpl.
  now destruct (MergeTreeBytes NewTreeMerger (TreeReport_Tree tr)).
Qed.

(** A later call on a tree report: only the merger moves. *)
Lemma aggregate_next a tr m :
  init a = true -> tree a = Some m ->
  aggregate a (treeReport tr) =
    ({| init := true;
        query := query a;
        tree := Some (fst (MergeTreeBytes m (TreeReport_Tree tr))) |},
     Return (snd (MergeTreeBytes m (TreeReport_Tree tr)))).
Proof.
  intros Hi Ht. unfold aggregate, init_Do. rewrite Hi. simpl. rewrite Ht, Hi.
  now destruct (MergeTreeBytes m (TreeReport_Tree tr)).
Qed.

(** A report without tree payload: the call panics; on the first call
    the [Once] is spent and the merger is in place. *)
Lemma aggregate_other a r :
  Report_Tree r = None ->
  aggregate a r =
    (if init a then a
     else {| init := true; query := query a; tree := Some NewTreeMerger |},
     Panic nilDereference).
Proof.
  intros Hr. unfold aggregate, init_Do, initOnce. rewrite Hr.
  destruct (init a) eqn:Hi; simpl; [|reflexivity].
  now destruct (tree a).
Qed.

Lemma MergeTreeBytes_merged (m : TreeMerger) tr :
  merged (fst (MergeTreeBytes m (TreeReport_Tree tr))) =
  mergeAll (merged m) (decoded [tr]).
Proof.
  unfold MergeTreeBytes. simpl.
  now destruct (UnmarshalTree (TreeReport_Tree tr)).
Qed.

Lemma decoded_cons tr (trs : list TreeReport) :
  decoded (tr :: trs) = decoded [tr] ++ decoded trs.
Proof.
  simpl. now destruct (UnmarshalTree (TreeReport_Tree tr)).
Qed.

Lemma mergeAll_app (t : Tree) (ts us : list Tree) :
  mergeAll t (ts ++ us) = mergeAll (mergeAll t ts) us.
Proof. apply fold_left_app. Qed.

(** What a run of calls on tree reports leaves in an aggregator that has
    been initialised. *)
Lemma aggregateAll_next (trs : list TreeReport) : forall a (m : TreeMerger),
  init a = true -> tree a = Some m ->
  aggregateAll a (map treeReport trs) =
    {| init := true;
       query := query a;
       tree := Some {| merged := mergeAll (merged m) (decoded trs) |} |}.
Proof.
  induction trs as [|tr trs IH]; intros a m Hi Ht.
  - simpl. destruct a as [i q t]; simpl in *; subst. now destruct m.
  - unfold aggregateAll in *. simpl map. simpl fold_left.
    rewrite (aggregate_next a tr m Hi Ht). cbn [fst].
    erewrite IH; [|reflexivity|reflexivity].
    cbn [query]. rewrite MergeTreeBytes_merged, (decoded_cons tr trs), mergeAll_app.
    reflexivity.
Qed.

(** The same from a new aggregator, for at least one report. *)
Lemma aggregateAll_new (req : InvokeRequest) tr (trs : list TreeReport) :
  aggregateAll (newTreeAggregator req) (map treeReport (tr :: trs)) =
    {| init := true;
       query := CloneVT (TreeReport_Query tr);
       tree := Some {| merged := mergeAll newTree (decoded (tr :: trs)) |} |}.
Proof.
  unfold aggregateAll. simpl map. simpl fold_left.
  rewrite aggregate_first by reflexivity. cbn [fst].
  fold (aggregateAll
    {| init := true; query := CloneVT (TreeReport_Query tr);
       tree := Some (fst (MergeTreeBytes NewTreeMerger (TreeReport_Tree tr))) |}
    (map treeReport trs)).
  erewrite aggregateAll_next; [|reflexivity|reflexivity].
  cbn [query]. rewrite MergeTreeBytes_merged, (decoded_cons tr trs), mergeAll_app.
  reflexivity.
Qed.

(** After any call the [Once] is spent. *)
Lemma aggregate_init a r : init (fst (aggregate a r)) = true.
Proof.
  destruct r as [[tr|]].
  - destruct (init a) eqn:Hi.
    + unfold aggregate, init_Do. rewrite Hi. simpl.
      destruct (tree a) as [m|]; [|exact Hi].
      now destruct (MergeTreeBytes m (TreeReport_Tree tr)).
    + change {| Report_Tree := Some tr |} with (treeReport tr).
      now rewrite aggregate_first.
  - rewrite aggregate_other by reflexivity. simpl.
    now destruct (init a) eqn:Hi.
Qed.

(** Once the [Once] is spent no call writes [a.query]. *)
Lemma aggregate_query a r :
  init a = true -> query (fst (aggregate a r)) = query a.
Proof.
  intros Hi. destruct r as [[tr|]].
  - unfold aggregate, init_Do. rewrite Hi. simpl.
    destruct (tree a) as [m|]; [|reflexivity].
    now destruct (MergeTreeBytes m (TreeReport_Tree tr)).
  - rewrite aggregate_other by reflexivity. now rewrite Hi.
Qed.

(** The first call captures the parameters of its report. *)
Lemma aggregate_query_first a r :
  init a = false -> query a = None ->
  query (fst (aggregate a r)) = CloneVT (reportQuery r).
Proof.
  intros Hi Hq. destruct r as [[tr|]].
  - change {| Report_Tree := Some tr |} with (treeReport tr).
    now rewrite aggregate_first.
  - rewrite aggregate_other by reflexivity. rewrite Hi. exact Hq.
Qed.

(** A call leaves a merger behind [a.tree], unless the aggregator was
    marked initialised without one. *)
Lemma aggregate_tree a r :
  (init a = true -> tree a <> None) -> tree (fst (aggregate a r)) <> None.
Proof.
  intros Hinv. destruct r as [[tr|]].
  - change {| Report_Tree := Some tr |} with (treeReport tr).
    destruct (init a) eqn:Hi.
    + destruct (tree a) as [m|] eqn:Ht; [|now exfalso; apply Hinv].
      now rewrite (aggregate_next a tr m Hi Ht).
    + now rewrite aggregate_first.
  - rewrite aggregate_other by reflexivity.
    destruct (init a) eqn:Hi; simpl; [now apply Hinv|discriminate].
Qed.

Lemma aggregateAll_query (rs : list Report) : forall a,
  init a = true -> query (aggregateAll a rs) = query a.
Proof.
  induction rs as [|r rs IH]; intros a Hi; [reflexivity|].
  unfold aggregateAll in *. simpl.
  rewrite IH by apply aggregate_init. now apply aggregate_query.
Qed.

Lemma aggregateAll_tree (rs : list Report) : forall a,
  init a = true -> tree a <> None -> tree (aggregateAll a rs) <> None.
Proof.
  induction rs as [|r rs IH]; intros a Hi Ht; [exact Ht|].
  unfold aggregateAll in *. simpl.
  apply IH; [apply aggregate_init|now apply aggregate_tree].
Qed.

Lemma aggregateAll_cons a r (rs : list Report) :
  aggregateAll a (r :: rs) = aggregateAll (fst (aggregate a r)) rs.
Proof. reflexivity. Qed.

Lemma aggregateAll_init (rs : list Report) : forall a,
  init (aggregateAll a rs) = match rs with [] => init a | _ => true end.
Proof.
  induction rs as [|r rs IH]; intros a; [reflexivity|].
  unfold aggregateAll in *. simpl. rewrite IH.
  destruct rs; [apply aggregate_init|reflexivity].
Qed.

(** In an aggregator made by the factory and fed by [aggregate], a spent
    [Once] comes with a merger. *)
Lemma aggregateAll_merger (req : InvokeRequest) (rs : list Report) :
  init (aggregateAll (newTreeAggregator req) rs) = true ->
  tree (aggregateAll (newTreeAggregator req) rs) <> None.
Proof.
  destruct rs as [|r rs]; [discriminate|]. intros _.
  unfold aggregateAll. simpl.
  apply (aggregateAll_tree rs); [apply aggregate_init|].
  now apply aggregate_tree.
Qed.

Lemma mergeAll_Permutation {L : TreeEngineLaws E} (ts us : list Tree) :
  Permutation ts us -> forall t, mergeAll t ts = mergeAll t us.
Proof.
  unfold mergeAll.
  induction 1 as [|x ts us _ IH|x y ts|ts us vs _ IH1 _ IH2]; intros t; simpl.
  - reflexivity.
  - apply IH.
  - f_equal. now rewrite !Merge_assoc, (Merge_comm y x).
  - now rewrite IH1.
Qed.

Lemma decoded_Permutation (rs rs' : list TreeReport) :
  Permutation rs rs' -> Permutation (decoded rs) (decoded rs').
Proof.
  induction 1 as [|x rs rs' _ IH|x y rs|rs1 rs2 rs3 _ IH1 _ IH2].
  - constructor.
  - rewrite (decoded_cons x rs), (decoded_cons x rs').
    now apply Permutation_app_head.
  - rewrite (decoded_cons y (x :: rs)), (decoded_cons x rs).
    rewrite (decoded_cons x (y :: rs)), (decoded_cons y rs).
    rewrite !app_assoc. apply Permutation_app_tail, Permutation_app_comm.
  - now transitivity (decoded rs2).
Qed.

(** [build] on what [aggregateAll_new] describes. *)
Lemma build_aggregateAll (req : InvokeRequest) tr (trs : list TreeReport) :
  build (aggregateAll (newTreeAggregator req) (map treeReport (tr :: trs))) =
    Return {| Report_Tree := Some {|
      TreeReport_Query := CloneVT (TreeReport_Query tr);
      TreeReport_Tree :=
        Bytes (mergeAll newTree (decoded (tr :: trs)))
              (GetMaxNodes (TreeReport_Query tr)) |} |}.
Proof.
  rewrite aggregateAll_new. unfold build. cbn [tree query TreeMerger_Tree merged].
  now rewrite GetMaxNodes_CloneVT.
Qed.

(** C1 (as amended): [build] returns a report, with no error, once
    [aggregate] has been called at least once, whatever the calls were
    given and whatever they returned; after calls on tree reports it is
    the report of the captured parameters and of the merge of the
    payloads that decoded, the tree without nodes when none did.  On an
    aggregator that [aggregate] was never called on, [a.tree] is nil and
    [build] panics. *)
Theorem build_after_aggregate (req : InvokeRequest) :
  build (newTreeAggregator req) = Panic nilDereference
  /\ (forall (r : Report) (rs : list Report),
        returned (build (aggregateAll (newTreeAggregator req) (r :: rs))) = true)
  /\ (forall (tr : TreeReport) (trs : list TreeReport),
        build (aggregateAll (newTreeAggregator req) (map treeReport (tr :: trs))) =
          Return {| Report_Tree := Some {|
            TreeReport_Query := CloneVT (TreeReport_Query tr);
            TreeReport_Tree :=
              Bytes (mergeAll newTree (decoded (tr :: trs)))
                    (GetMaxNodes (TreeReport_Query tr)) |} |}).
Proof.
  split; [reflexivity|]. split.
  - intros r rs.
    pose proof (aggregateAll_merger req (r :: rs)) as Hm.
    rewrite aggregateAll_init in Hm. specialize (Hm eq_refl).
    unfold build. destruct (tree _); [reflexivity|now elim Hm].
  - apply build_aggregateAll.
Qed.

(** C2: whatever reports follow the first one, the parameters the
    aggregator holds are a copy of those of the first report, no later
    call changes them, and [build] attaches them to the final report. *)
Theorem captured_query_is_first (req : InvokeRequest) (r : Report) (rs : list Report) :
  query (aggregateAll (newTreeAggregator req) (r :: rs)) = CloneVT (reportQuery r)
  /\ (forall r' : Report,
        query (fst (aggregate (aggregateAll (newTreeAggregator req) (r :: rs)) r')) =
        CloneVT (reportQuery r))
  /\ (exists b : list byte,
        build (aggregateAll (newTreeAggregator req) (r :: rs)) =
          Return {| Report_Tree := Some {|
            TreeReport_Query := CloneVT (reportQuery r);
            TreeReport_Tree := b |} |}).
Proof.
  assert (Hq : query (aggregateAll (newTreeAggregator req) (r :: rs))
               = CloneVT (reportQuery r)).
  { rewrite aggregateAll_cons.
    rewrite (aggregateAll_query rs) by apply aggregate_init.
    now apply aggregate_query_first. }
  split; [exact Hq|]. split.
  - intros r'. rewrite aggregate_query; [exact Hq|].
    now rewrite aggregateAll_init.
  - pose proof (aggregateAll_merger req (r :: rs)) as Hm.
    rewrite aggregateAll_init in Hm. specialize (Hm eq_refl).
    unfold build. rewrite Hq.
    destruct (tree _) as [m|]; [|now elim Hm].
    now eexists.
Qed.

(** C3 (as amended): when the merge of the engine is commutative and
    associative, two orders of the same tree reports whose first reports
    ask for the same number of nodes give the same serialized tree. *)
Theorem build_permutation_same_cap {L : TreeEngineLaws E}
  (req : InvokeRequest) (rs rs' : list TreeReport) :
  Permutation rs rs' ->
  GetMaxNodes (firstQuery rs) = GetMaxNodes (firstQuery rs') ->
  serializedTree (build (aggregateAll (newTreeAggregator req) (map treeReport rs))) =
  serializedTree (build (aggregateAll (newTreeAggregator req) (map treeReport rs'))).
Proof.
  intros Hp Hc.
  destruct rs as [|r rs]; destruct rs' as [|r' rs'].
  - reflexivity.
  - now apply Permutation_nil in Hp.
  - now apply Permutation_sym, Permutation_nil in Hp.
  - rewrite !build_aggregateAll. cbn [firstQuery] in Hc.
    cbn [serializedTree Report_Tree TreeReport_Tree]. rewrite Hc.
    do 2 f_equal. apply mergeAll_Permutation, decoded_Permutation, Hp.
Qed.

(** C8 (as amended): a tree report whose payload does not decode makes
    [aggregate] return the error of the decoder.  An aggregator that has
    seen a call before is left exactly as it was; on the first call the
    [Once] still fires, so the aggregator takes this report's parameters
    and a merger holding the tree without nodes. *)
Theorem aggregate_decode_error (req : InvokeRequest) (rs : list Report)
  (tr : TreeReport) (e : error) :
  UnmarshalTree (TreeReport_Tree tr) = inr e ->
  aggregate (aggregateAll (newTreeAggregator req) rs) (treeReport tr) =
    (if init (aggregateAll (newTreeAggregator req) rs)
     then aggregateAll (newTreeAggregator req) rs
     else {| init := true;
             query := CloneVT (TreeReport_Query tr);
             tree := Some NewTreeMerger |},
     Return (Some e)).
Proof.
  intros He.
  pose proof (aggregateAll_merger req rs) as Hm.
  destruct (init (aggregateAll (newTreeAggregator req) rs)) eqn:Hi.
  - destruct (tree (aggregateAll (newTreeAggregator req) rs)) as [m|] eqn:Ht;
      [|now elim Hm].
    rewrite (aggregate_next _ tr m Hi Ht). unfold MergeTreeBytes. rewrite He.
    cbn [fst snd]. rewrite <- Ht, <- Hi at 1. now rewrite treeAggregator_eta.
  - rewrite aggregate_first by exact Hi. unfold MergeTreeBytes. rewrite He.
    reflexivity.
Qed.

(** C10: the factory does not read its argument: the aggregators made
    for two requests are equal, and so are what every call of
    [aggregate] returns and the report [build] gives. *)
Theorem newTreeAggregator_ignores_request (req1 req2 : InvokeRequest)
  (rs : list Report) :
  newTreeAggregator req1 = newTreeAggregator req2
  /\ aggregateResults (newTreeAggregator req1) rs =
     aggregateResults (newTreeAggregator req2) rs
  /\ build (aggregateAll (newTreeAggregator req1) rs) =
     build (aggregateAll (newTreeAggregator req2) rs).
Proof. repeat split. Qed.

End AggregatorFacts.

(** * Properties of the executor *)

Section ExecutorFacts.

Context {E : TreeEngine}.

Implicit Types (q : queryContext) (query : Query).

Lemma addRows_eq (ps : list RepeatedRow) : forall r : resolver,
  addRows ps r = (r ++ ps, addSamplesCalls ps).
Proof.
  induction ps as [|p ps IH]; intros r; simpl.
  - now rewrite app_nil_r.
  - rewrite IH. unfold bind, emit. simpl. now rewrite <- app_assoc.
Qed.

Lemma count_app (p : event -> bool) (t u : list event) :
  count p (t ++ u) = (count p t + count p u)%nat.
Proof. unfold count. now rewrite filter_app, length_app. Qed.

Lemma count_addSamplesCalls_isRelease (ps : list RepeatedRow) :
  count isRelease (addSamplesCalls ps) = 0%nat.
Proof. induction ps as [|p ps IH]; [reflexivity|exact IH]. Qed.

Lemma In_addSamplesCalls (ps : list RepeatedRow) (e : event) :
  In e (addSamplesCalls ps) -> usesResolver e = true.
Proof.
  unfold addSamplesCalls. rewrite in_map_iff. now intros [p [<- _]].
Qed.

(** The five ways through [queryTree]: the results of the [return]
    reached, the final value of the local [err], and the calls made. *)

Lemma queryTreeCall_entries_error q query e :
  entriesError (ds q) = Some e ->
  queryTreeCall q query = ((None, Some e), Some e, []).
Proof.
  intros H1. unfold queryTreeCall, queryTreeBody, profileEntryIterator.
  now rewrite H1.
Qed.

Lemma queryTreeCall_schema_error q query e :
  entriesError (ds q) = None -> schemaError (ds q) = Some e ->
  queryTreeCall q query =
    ((None, Some e),
     CloseWithErrCapture (Some e) (closeEntries (closing q)) closeEntriesMsg,
     [OpenEntries; CloseEntries]).
Proof.
  intros H1 H2. unfold queryTreeCall, queryTreeBody, profileEntryIterator.
  rewrite H1. cbn. now rewrite H2.
Qed.

Lemma queryTreeCall_rows_error q query e :
  entriesError (ds q) = None -> schemaError (ds q) = None ->
  rowsError (ds q) = Some e ->
  queryTreeCall q query =
    ((None, Some e),
     CloseWithErrCapture
       (CloseWithErrCapture (Some e) (closeProfiles (closing q)) closeProfilesMsg)
       (closeEntries (closing q)) closeEntriesMsg,
     [OpenEntries; OpenProfiles; NewResolver] ++ addSamplesCalls (rows (ds q))
       ++ [Release; CloseProfiles; CloseEntries]).
Proof.
  intros H1 H2 H3. unfold queryTreeCall, queryTreeBody, profileEntryIterator.
  rewrite H1. cbn. rewrite H2. cbn. rewrite addRows_eq, H3. cbn.
  now rewrite app_nil_r.
Qed.

Lemma queryTreeCall_resolver_error q query e :
  entriesError (ds q) = None -> schemaError (ds q) = None ->
  rowsError (ds q) = None -> symbols (ds q) (rows (ds q)) = inr e ->
  queryTreeCall q query =
    ((None, Some e),
     CloseWithErrCapture
       (CloseWithErrCapture (Some e) (closeProfiles (closing q)) closeProfilesMsg)
       (closeEntries (closing q)) closeEntriesMsg,
     [OpenEntries; OpenProfiles; NewResolver] ++ addSamplesCalls (rows (ds q))
       ++ [ResolverTree; Release; CloseProfiles; CloseEntries]).
Proof.
  intros H1 H2 H3 H4. unfold queryTreeCall, queryTreeBody, profileEntryIterator.
  rewrite H1. cbn. rewrite H2. cbn. rewrite addRows_eq, H3. cbn. rewrite H4. cbn.
  now rewrite <- app_assoc.
Qed.

Lemma queryTreeCall_success q query (t : Tree) :
  entriesError (ds q) = None -> schemaError (ds q) = None ->
  rowsError (ds q) = None -> symbols (ds q) (rows (ds q)) = inl t ->
  queryTreeCall q query =
    ((Some (treeResponse query t), None),
     CloseWithErrCapture
       (CloseWithErrCapture None (closeProfiles (closing q)) closeProfilesMsg)
       (closeEntries (closing q)) closeEntriesMsg,
     [OpenEntries; OpenProfiles; NewResolver] ++ addSamplesCalls (rows (ds q))
       ++ [ResolverTree; Release; CloseProfiles; CloseEntries]).
Proof.
  intros H1 H2 H3 H4. unfold queryTreeCall, queryTreeBody, profileEntryIterator.
  rewrite H1. cbn. rewrite H2. cbn. rewrite addRows_eq, H3. cbn. rewrite H4. cbn.
  now rewrite <- app_assoc.
Qed.

Lemma queryTree_of_call q query :
  queryTree q query = (fst (fst (queryTreeCall q query)), snd (queryTreeCall q query)).
Proof.
  unfold queryTree, bind, ret.
  destruct (queryTreeCall q query) as [[res e] t]. simpl. now rewrite app_nil_r.
Qed.

(** Which way a run goes, with what it returns and the calls it makes. *)
Ltac queryTree_paths q query :=
  let e := fresh "e" in
  let t := fresh "t" in
  let H1 := fresh "Hentries" in
  let H2 := fresh "Hschema" in
  let H3 := fresh "Hrows" in
  let H4 := fresh "Hsymbols" in
  rewrite ?(queryTree_of_call q query);
  destruct (entriesError (ds q)) as [e|] eqn:H1;
  [ rewrite ?(queryTreeCall_entries_error q query e H1)
  | destruct (schemaError (ds q)) as [e|] eqn:H2;
    [ rewrite ?(queryTreeCall_schema_error q query e H1 H2)
    | destruct (rowsError (ds q)) as [e|] eqn:H3;
      [ rewrite ?(queryTreeCall_rows_error q query e H1 H2 H3)
      | destruct (symbols (ds q) (rows (ds q))) as [t|e] eqn:H4;
        [ rewrite ?(queryTreeCall_success q query t H1 H2 H3 H4)
        | rewrite ?(queryTreeCall_resolver_error q query e H1 H2 H3 H4) ] ] ] ].

(** What [queryTree] returns depends on the block and the query only. *)
Lemma queryTree_results q query :
  fst (queryTree q query) = resultsFor (ds q) query.
Proof.
  unfold resultsFor. queryTree_paths q query; reflexivity.
Qed.

(** A run that meets no error returns the report of the resolved tree. *)
Lemma queryTree_returns_report q query (t : Tree) :
  entriesError (ds q) = None -> schemaError (ds q) = None ->
  rowsError (ds q) = None -> symbols (ds q) (rows (ds q)) = inl t ->
  fst (queryTree q query) = (Some (treeResponse query t), None).
Proof.
  intros H1 H2 H3 H4. rewrite queryTree_results. unfold resultsFor.
  now rewrite H1, H2, H3, H4.
Qed.

(** C4: when the row iterator ends with an error, [queryTree] returns
    that very error and a nil report. *)
Theorem queryTree_iterator_error q query (e : error) :
  entriesError (ds q) = None -> schemaError (ds q) = None ->
  rowsError (ds q) = Some e ->
  fst (queryTree q query) = (None, Some e).
Proof.
  intros H1 H2 H3. rewrite queryTree_results. unfold resultsFor.
  now rewrite H1, H2, H3.
Qed.

(** C5: in a run that creates the resolver, [Release] is called exactly
    once, after the resolver was created and after every other call on
    it, whichever [return] ends the run. *)
Theorem queryTree_releases_once q query :
  In NewResolver (snd (queryTree q query)) ->
  count isRelease (snd (queryTree q query)) = 1%nat
  /\ exists before after : list event,
       snd (queryTree q query) = before ++ Release :: after
       /\ In NewResolver before
       /\ existsb usesResolver after = false.
Proof.
  queryTree_paths q query; cbn [snd]; intros Hin.
  - destruct Hin.
  - simpl in Hin. now destruct Hin as [|[|[]]].
  - split.
    + rewrite !count_app, count_addSamplesCalls_isRelease. reflexivity.
    + exists ([OpenEntries; OpenProfiles; NewResolver] ++ addSamplesCalls (rows (ds q))),
        [CloseProfiles; CloseEntries].
      split; [now rewrite <- app_assoc|split; [simpl; tauto|reflexivity]].
  - split.
    + rewrite !count_app, count_addSamplesCalls_isRelease. reflexivity.
    + exists ([OpenEntries; OpenProfiles; NewResolver] ++ addSamplesCalls (rows (ds q))
               ++ [ResolverTree]),
        [CloseProfiles; CloseEntries].
      split; [now rewrite <- !app_assoc|split; [simpl; tauto|reflexivity]].
  - split.
    + rewrite !count_app, count_addSamplesCalls_isRelease. reflexivity.
    + exists ([OpenEntries; OpenProfiles; NewResolver] ++ addSamplesCalls (rows (ds q))
               ++ [ResolverTree]),
        [CloseProfiles; CloseEntries].
      split; [now rewrite <- !app_assoc|split; [simpl; tauto|reflexivity]].
Qed.

(** C6: when [queryTree] returns a nil error, the resolver gave a tree
    for the rows of the block and the report returned holds a copy of
    the tree parameters of the query and that tree serialized with the
    query's maximum number of nodes, and nothing else. *)
Theorem queryTree_success_report q query :
  snd (fst (queryTree q query)) = None ->
  exists t : Tree,
    symbols (ds q) (rows (ds q)) = inl t
    /\ fst (fst (queryTree q query)) =
       Some {| Report_Tree := Some {|
         TreeReport_Query := CloneVT (Query_Tree query);
         TreeReport_Tree := Bytes t (GetMaxNodes (Query_Tree query)) |} |}.
Proof.
  queryTree_paths q query; cbn [fst snd]; intros H; try discriminate H.
  now exists t.
Qed.

End ExecutorFacts.

(** * The single-path engine: laws and concrete runs *)

Lemma PathTree_merge_comm (a : PathTree.t) : forall b : PathTree.t,
  PathTree.merge a b = PathTree.merge b a.
Proof.
  induction a as [|x a IH]; intros [|y b]; simpl; try reflexivity.
  now rewrite IH, Z.add_comm.
Qed.

Lemma PathTree_merge_assoc (a : PathTree.t) : forall b c : PathTree.t,
  PathTree.merge (PathTree.merge a b) c = PathTree.merge a (PathTree.merge b c).
Proof.
  induction a as [|x a IH]; intros [|y b] [|z c]; simpl; try reflexivity.
  now rewrite IH, Z.add_assoc.
Qed.

Lemma PathTree_laws : TreeEngineLaws PathTree.engine.
Proof.
  split; [exact PathTree_merge_comm|exact PathTree_merge_assoc].
Qed.

(** C1, as stated, fails: on the aggregator the factory returns, [build]
    panics on the nil merger instead of returning a report. *)
Lemma build_before_aggregate_panics :
  build (E := PathTree.engine) (newTreeAggregator tt) = Panic nilDereference
  /\ ~ exists rep : Report,
         build (E := PathTree.engine) (newTreeAggregator tt) = Return rep.
Proof.
  split; [reflexivity|]. intros [rep H]. discriminate H.
Qed.

(** C3, as stated, fails: the reports of blocks A and B, B echoing a
    query for 1 node, give a serialized tree of two nodes in one order
    and of one node in the other. *)
Lemma build_depends_on_order :
  Permutation [PathTree.reportA; PathTree.reportB1]
              [PathTree.reportB1; PathTree.reportA]
  /\ serializedTree (build (E := PathTree.engine)
       (aggregateAll (newTreeAggregator tt)
          (map treeReport [PathTree.reportA; PathTree.reportB1])))
     = Return (PathTree.bytes [15; 10] 10)
  /\ serializedTree (build (E := PathTree.engine)
       (aggregateAll (newTreeAggregator tt)
          (map treeReport [PathTree.reportB1; PathTree.reportA])))
     = Return (PathTree.bytes [15] 10)
  /\ PathTree.bytes [15; 10] 10 <> PathTree.bytes [15] 10.
Proof.
  split; [apply perm_swap|].
  split; [reflexivity|]. split; [reflexivity|]. discriminate.
Qed.

Lemma build_permutation_same_cap_witness :
  Permutation [PathTree.reportA; PathTree.reportB]
              [PathTree.reportB; PathTree.reportA]
  /\ GetMaxNodes (firstQuery [PathTree.reportA; PathTree.reportB]) =
     GetMaxNodes (firstQuery [PathTree.reportB; PathTree.reportA])
  /\ serializedTree (build (E := PathTree.engine)
       (aggregateAll (newTreeAggregator tt)
          (map treeReport [PathTree.reportA; PathTree.reportB])))
     = serializedTree (build (E := PathTree.engine)
       (aggregateAll (newTreeAggregator tt)
          (map treeReport [PathTree.reportB; PathTree.reportA]))).
Proof.
  pose (P := perm_swap PathTree.reportB PathTree.reportA []).
  split; [exact P|]. split; [reflexivity|].
  exact (build_permutation_same_cap (E := PathTree.engine)
           (L := PathTree_laws) tt _ _ P eq_refl).
Defined.

(** C8, as stated, fails: a report of another kind makes [aggregate]
    panic, on the first call and on a later one, and a first call whose
    payload does not decode still changes the aggregator: it captures
    the parameters of the report it refuses. *)
Lemma aggregate_other_kind_panics :
  snd (aggregate (E := PathTree.engine) (newTreeAggregator tt) PathTree.reportOther)
    = Panic nilDereference
  /\ snd (aggregate (E := PathTree.engine)
            (aggregateAll (newTreeAggregator tt) [treeReport PathTree.reportA])
            PathTree.reportOther)
    = Panic nilDereference
  /\ snd (aggregate (E := PathTree.engine) (newTreeAggregator tt)
            (treeReport PathTree.reportCut))
    = Return (Some PathTree.malformed)
  /\ query (fst (aggregate (E := PathTree.engine) (newTreeAggregator tt)
                   (treeReport PathTree.reportCut)))
    = Some {| MaxNodes := 7 |}
  /\ query (E := PathTree.engine) (newTreeAggregator tt) = None.
Proof. repeat split. Qed.

Lemma aggregate_decode_error_witness :
  UnmarshalTree (TreeEngine := PathTree.engine)
    (TreeReport_Tree PathTree.reportCut) = inr PathTree.malformed
  /\ aggregate (E := PathTree.engine)
       (aggregateAll (newTreeAggregator tt) [treeReport PathTree.reportA])
       (treeReport PathTree.reportCut)
     = (aggregateAll (newTreeAggregator tt) [treeReport PathTree.reportA],
        Return (Some PathTree.malformed)).
Proof.
  split; [reflexivity|].
  exact (aggregate_decode_error (E := PathTree.engine) tt
           [treeReport PathTree.reportA] PathTree.reportCut PathTree.malformed
           eq_refl).
Defined.

Lemma queryTree_iterator_error_witness :
  entriesError (ds PathTree.runCut) = None
  /\ schemaError (ds PathTree.runCut) = None
  /\ rowsError (ds PathTree.runCut) = Some PathTree.truncated
  /\ fst (queryTree PathTree.runCut PathTree.queryA) = (None, Some PathTree.truncated).
Proof.
  repeat (split; [reflexivity|]).
  exact (queryTree_iterator_error PathTree.runCut PathTree.queryA
           PathTree.truncated eq_refl eq_refl eq_refl).
Defined.

Lemma queryTree_releases_once_witness :
  In NewResolver (snd (queryTree PathTree.runCut PathTree.queryA))
  /\ count isRelease (snd (queryTree PathTree.runCut PathTree.queryA)) = 1%nat.
Proof.
  assert (H : In NewResolver (snd (queryTree PathTree.runCut PathTree.queryA)))
    by (simpl; tauto).
  split; [exact H|].
  exact (proj1 (queryTree_releases_once PathTree.runCut PathTree.queryA H)).
Defined.

Lemma queryTree_success_report_witness :
  snd (fst (queryTree PathTree.runA PathTree.queryA)) = None
  /\ exists t : PathTree.t,
       symbols (ds PathTree.runA) (rows (ds PathTree.runA)) = inl t
       /\ fst (fst (queryTree PathTree.runA PathTree.queryA)) =
          Some {| Report_Tree := Some {|
            TreeReport_Query := CloneVT (Query_Tree PathTree.queryA);
            TreeReport_Tree :=
              PathTree.bytes t (GetMaxNodes (Query_Tree PathTree.queryA)) |} |}.
Proof.
  split; [reflexivity|].
  exact (queryTree_success_report PathTree.runA PathTree.queryA eq_refl).
Defined.

(** C7 fails on the code: over block A, with [Close] of the entry
    iterator failing, [queryTree] returns the report and a nil error.
    The deferred [CloseWithErrCapture] stores the failure in the local
    [err], which no result is read from after the [return]. *)
Theorem queryTree_drops_close_error :
  closeEntries (closing PathTree.runA) = Some PathTree.closeFailed
  /\ In CloseEntries (snd (queryTree PathTree.runA PathTree.queryA))
  /\ fst (queryTree PathTree.runA PathTree.queryA) =
     (Some (treeResponse (E := PathTree.engine) PathTree.queryA PathTree.treeA),
      None)
  /\ snd (fst (queryTreeCall PathTree.runA PathTree.queryA)) =
     Some (nonNilMultiError [withMessage PathTree.closeFailed closeEntriesMsg]).
Proof.
  split; [reflexivity|]. split; [simpl; tauto|]. split; reflexivity.
Qed.

(** * More on the executor: early returns and resources *)

Section ExecutorEdges.

Context {E : TreeEngine}.

Implicit Types (q : queryContext) (query : Query).

Lemma filter_addSamplesCalls_none (p : event -> bool) (ps : list RepeatedRow) :
  (forall a b c, p (AddSamples a b c) = false) ->
  filter p (addSamplesCalls ps) = [].
Proof.
  intros Hp. induction ps as [|x ps IH]; [reflexivity|].
  simpl. now rewrite Hp.
Qed.

Lemma filter_addSamplesCalls_all (ps : list RepeatedRow) :
  filter isAddSamples (addSamplesCalls ps) = addSamplesCalls ps.
Proof.
  induction ps as [|x ps IH]; [reflexivity|]. simpl. now rewrite IH.
Qed.

Lemma In_addSamplesCalls_kind (ps : list RepeatedRow) (e : event) :
  In e (addSamplesCalls ps) -> isAddSamples e = true.
Proof.
  unfold addSamplesCalls. rewrite in_map_iff. now intros [p [<- _]].
Qed.

(** X1: when [profileEntryIterator] fails, [queryTree] returns its error
    with a nil report and has acquired nothing: it makes no call on an
    iterator or a resolver, and closes nothing. *)
Theorem queryTree_entries_error q query (e : error) :
  entriesError (ds q) = Some e ->
  queryTree q query = ((None, Some e), []).
Proof.
  intros H. rewrite queryTree_of_call.
  now rewrite (queryTreeCall_entries_error q query e H).
Qed.

(** X2: when the sample columns do not resolve against the schema,
    [queryTree] returns that error with a nil report; the entry iterator
    is closed, and neither the row iterator nor a resolver is created. *)
Theorem queryTree_schema_error q query (e : error) :
  entriesError (ds q) = None -> schemaError (ds q) = Some e ->
  queryTree q query = ((None, Some e), [OpenEntries; CloseEntries]).
Proof.
  intros H1 H2. rewrite queryTree_of_call.
  now rewrite (queryTreeCall_schema_error q query e H1 H2).
Qed.

(** X3: when [resolver.Tree()] fails, [queryTree] returns that error
    unchanged with a nil report, after adding every row, and still
    releases the resolver and closes both iterators. *)
Theorem queryTree_resolver_error q query (e : error) :
  entriesError (ds q) = None -> schemaError (ds q) = None ->
  rowsError (ds q) = None -> symbols (ds q) (rows (ds q)) = inr e ->
  queryTree q query =
    ((None, Some e),
     [OpenEntries; OpenProfiles; NewResolver] ++ addSamplesCalls (rows (ds q))
       ++ [ResolverTree; Release; CloseProfiles; CloseEntries]).
Proof.
  intros H1 H2 H3 H4. rewrite queryTree_of_call.
  now rewrite (queryTreeCall_resolver_error q query e H1 H2 H3 H4).
Qed.

Ltac run_paths q query :=
  let e := fresh "e" in
  let t := fresh "t" in
  let H1 := fresh "Hentries" in
  let H2 := fresh "Hschema" in
  let H3 := fresh "Hrows" in
  let H4 := fresh "Hsymbols" in
  rewrite ?(queryTree_of_call q query);
  destruct (entriesError (ds q)) as [e|] eqn:H1;
  [ rewrite ?(queryTreeCall_entries_error q query e H1)
  | destruct (schemaError (ds q)) as [e|] eqn:H2;
    [ rewrite ?(queryTreeCall_schema_error q query e H1 H2)
    | destruct (rowsError (ds q)) as [e|] eqn:H3;
      [ rewrite ?(queryTreeCall_rows_error q query e H1 H2 H3)
      | destruct (symbols (ds q) (rows (ds q))) as [t|e] eqn:H4;
        [ rewrite ?(queryTreeCall_success q query t H1 H2 H3 H4)
        | rewrite ?(queryTreeCall_resolver_error q query e H1 H2 H3 H4) ] ] ] ].

(** X4: [queryTree] returns a report or an error, never both and never
    neither: the report is nil exactly when the error is not. *)
Theorem queryTree_report_xor_error q query :
  fst (fst (queryTree q query)) = None <-> snd (fst (queryTree q query)) <> None.
Proof.
  run_paths q query; cbn [fst snd]; split; intros H;
    try discriminate; try reflexivity; now elim H.
Qed.

(** X5: in every run what was acquired is given back, once each and the
    last acquired first: the resolver is released, then the row
    iterator is closed, then the entry iterator. *)
Theorem queryTree_gives_back_in_reverse q query :
  map acquiredBy (filter isGiveBack (snd (queryTree q query))) =
  rev (filter isAcquire (snd (queryTree q query))).
Proof.
  run_paths q query; cbn [snd]; try reflexivity;
    rewrite !filter_app, !(filter_addSamplesCalls_none isGiveBack),
      !(filter_addSamplesCalls_none isAcquire) by reflexivity;
    reflexivity.
Qed.

(** X6: in a run that reaches the loop, every row of the block is added
    to the resolver, once and in the order of the block, also when the
    iterator ends with an error; [resolver.Tree()] is called exactly when
    the iterator ended without one. *)
Theorem queryTree_adds_every_row q query :
  entriesError (ds q) = None -> schemaError (ds q) = None ->
  filter isAddSamples (snd (queryTree q query)) = addSamplesCalls (rows (ds q))
  /\ (In ResolverTree (snd (queryTree q query)) <-> rowsError (ds q) = None).
Proof.
  intros H1 H2. run_paths q query; try discriminate; cbn [snd];
    (split;
     [ rewrite !filter_app, filter_addSamplesCalls_all; simpl;
       now rewrite app_nil_r
     | ]).
  - split; [|discriminate]. intros Hin. exfalso.
    apply in_app_or in Hin. destruct Hin as [Hin|Hin].
    + simpl in Hin. now destruct Hin as [|[|[|]]].
    + apply in_app_or in Hin. destruct Hin as [Hin|Hin].
      * apply In_addSamplesCalls_kind in Hin. discriminate Hin.
      * simpl in Hin. now destruct Hin as [|[|[|]]].
  - split; [reflexivity|]. intros _.
    apply in_or_app. right. apply in_or_app. right. simpl. tauto.
  - split; [reflexivity|]. intros _.
    apply in_or_app. right. apply in_or_app. right. simpl. tauto.
Qed.

End ExecutorEdges.

(** * More on the aggregator *)

Section AggregatorEdges.

Context {E : TreeEngine} {InvokeRequest : Type}.

(** The error [UnmarshalTree] gives for a payload, nil when it decodes. *)
Lemma MergeTreeBytes_error (m : TreeMerger) (b : list byte) :
  snd (MergeTreeBytes m b) =
  match UnmarshalTree b with inl _ => None | inr e => Some e end.
Proof. unfold MergeTreeBytes. now destruct (UnmarshalTree b). Qed.

(** X7: on an aggregator made by the factory, whatever it was fed
    before, [aggregate] of a tree report returns and does not panic; the
    error it returns is the one of decoding the payload of this report,
    nil when the payload decodes. *)
Theorem aggregate_error_is_decode_error (req : InvokeRequest)
  (rs : list Report) (tr : TreeReport) :
  snd (aggregate (aggregateAll (newTreeAggregator req) rs) (treeReport tr)) =
  Return match UnmarshalTree (TreeReport_Tree tr) with
         | inl _ => None
         | inr e => Some e
         end.
Proof.
  pose proof (aggregateAll_merger req rs) as Hm.
  destruct (init (aggregateAll (newTreeAggregator req) rs)) eqn:Hi.
  - destruct (tree (aggregateAll (newTreeAggregator req) rs)) as [m|] eqn:Ht;
      [|now elim Hm].
    rewrite (aggregate_next _ tr m Hi Ht). cbn [snd].
    now rewrite MergeTreeBytes_error.
  - rewrite aggregate_first by exact Hi. cbn [snd].
    now rewrite MergeTreeBytes_error.
Qed.

Lemma decoded_payloads (rs rs' : list TreeReport) :
  map TreeReport_Tree rs = map TreeReport_Tree rs' -> decoded rs = decoded rs'.
Proof.
  revert rs'. induction rs as [|r rs IH]; intros [|r' rs'] H;
    try discriminate H; [reflexivity|].
  simpl in H. injection H as Hr Hrs. simpl. rewrite Hr.
  now rewrite (IH rs' Hrs).
Qed.

(** X8: the parameters of every report after the first are ignored: two
    runs of reports that start with the same report and carry the same
    payloads afterwards build the same final report. *)
Theorem build_ignores_later_queries (req : InvokeRequest) (tr : TreeReport)
  (rs rs' : list TreeReport) :
  map TreeReport_Tree rs = map TreeReport_Tree rs' ->
  build (aggregateAll (newTreeAggregator req) (map treeReport (tr :: rs))) =
  build (aggregateAll (newTreeAggregator req) (map treeReport (tr :: rs'))).
Proof.
  intros H. rewrite !build_aggregateAll.
  rewrite (decoded_cons tr rs), (decoded_cons tr rs').
  now rewrite (decoded_payloads rs rs' H).
Qed.

(** X9: a report without tree payload, given to an aggregator that has
    seen a call before, makes [aggregate] panic and leaves the
    aggregator as it was: what was captured and merged is kept. *)
Theorem aggregate_other_kind_keeps_state (req : InvokeRequest)
  (r : Report) (rs : list Report) :
  aggregate (aggregateAll (newTreeAggregator req) (r :: rs))
            {| Report_Tree := None |} =
  (aggregateAll (newTreeAggregator req) (r :: rs), Panic nilDereference).
Proof.
  rewrite aggregate_other by reflexivity.
  now rewrite aggregateAll_init.
Qed.

End AggregatorEdges.

(** * Properties of the health observer *)

Module raftleaderFacts.

Import raftleader.

Local Notation "m !! k" := (base.lookup k m) (at level 20).

Lemma HealthObserver_eta (hs : HealthObserver) :
  {| metrics := metrics hs; registered := registered hs |} = hs.
Proof. now destruct hs. Qed.

Lemma updateStatus_metrics (svc : raftService) (hs : HealthObserver)
  (w : world) (m : Metrics) :
  metrics hs = Some m ->
  updateStatus svc (hs, w) =
    (({| metrics :=
           Some {| Metrics_status := RaftState_uint32 (raftState w (raft svc)) |};
         registered := registered hs |},
      SetServingStatus (service svc) (statusFor (raftState w (raft svc)))
        (Log (infoLine (service svc) "updating health status"
                (statusFor (raftState w (raft svc)))) w)),
     Return tt).
Proof. intros Hm. unfold updateStatus. now rewrite Hm. Qed.

Lemma updateStatus_nil (svc : raftService) (hs : HealthObserver) (w : world) :
  metrics hs = None ->
  updateStatus svc (hs, w) = ((hs, w), Panic nilDereference).
Proof. intros Hm. unfold updateStatus. now rewrite Hm. Qed.

(** [Register] of a pair that is registered. *)
Lemma Register_registered (st : state) (r : nat) (s : string) (svc : raftService) :
  registered (fst st) !! (r, s) = Some svc ->
  Register r s st = (st, Return tt).
Proof.
  destruct st as [hs w]. simpl. intros Hk. unfold Register. now rewrite Hk.
Qed.

(** [Register] of a pair that is not, on an observer with metrics. *)
Lemma Register_fresh (hs : HealthObserver) (w : world) (r : nat) (s : string)
  (m : Metrics) :
  registered hs !! (r, s) = None -> metrics hs = Some m ->
  Register r s (hs, w) =
    (({| metrics := Some {| Metrics_status := RaftState_uint32 (raftState w r) |};
         registered :=
           base.insert (r, s)
             {| service := s; raft := r; observer := S (nextObserverID w) |}
             (registered hs) |},
      RegisterObserver r (S (nextObserverID w))
        (snd (NewObserver
           (SetServingStatus s (statusFor (raftState w r))
              (Log (infoLine s "updating health status" (statusFor (raftState w r)))
                 (Log (debugLine s "registering health check") w)))))),
     Return tt).
Proof.
  intros Hk Hm. unfold Register. rewrite Hk.
  rewrite (updateStatus_metrics _ hs _ m Hm). reflexivity.
Qed.

(** X10: [Register] is idempotent: once a call has returned, the same
    call again returns at once and changes nothing: no status is set,
    no line is logged, no second observer or goroutine is made. *)
Theorem Register_again (st : state) (r : nat) (s : string) :
  snd (Register r s st) = Return tt ->
  Register r s (fst (Register r s st)) = (fst (Register r s st), Return tt).
Proof.
  destruct st as [hs w]. intros Hret.
  destruct (registered hs !! (r, s)) as [svc|] eqn:Hk.
  - rewrite (Register_registered (hs, w) r s svc Hk). cbn [fst].
    exact (Register_registered (hs, w) r s svc Hk).
  - destruct (metrics hs) as [m|] eqn:Hm.
    + rewrite (Register_fresh hs w r s m Hk Hm). cbn [fst].
      eapply Register_registered. cbn [fst registered].
      apply fin_maps.lookup_insert_eq.
    + unfold Register in Hret. rewrite Hk, (updateStatus_nil _ _ _ Hm) in Hret.
      discriminate Hret.
Qed.

(** X11: on an observer made with nil metrics, [Register] of a new pair
    panics in [updateStatus] after logging; nothing is registered, no
    status is set and no observer is given to the raft node. *)
Theorem Register_without_metrics (st : state) (r : nat) (s : string) :
  metrics (fst st) = None -> registered (fst st) !! (r, s) = None ->
  Register r s st =
    ((fst st, Log (debugLine s "registering health check") (snd st)),
     Panic nilDereference).
Proof.
  destruct st as [hs w]. cbn [fst snd]. intros Hm Hk. unfold Register.
  now rewrite Hk, (updateStatus_nil _ _ _ Hm).
Qed.

(** X12: [Register] of a new pair on an observer with metrics returns;
    the pair is then registered with a new observer that the raft node
    holds, the health service has the service as [SERVING] when the raft
    node is the leader at that moment and as [NOT_SERVING] otherwise, and
    the gauge holds the number of the raft state. *)
Theorem Register_new (st : state) (r : nat) (s : string) (m : Metrics) :
  metrics (fst st) = Some m -> registered (fst st) !! (r, s) = None ->
  snd (Register r s st) = Return tt
  /\ registered (fst (fst (Register r s st))) !! (r, s) =
     Some {| service := s; raft := r; observer := S (nextObserverID (snd st)) |}
  /\ raftObservers (snd (fst (Register r s st))) !! (r, S (nextObserverID (snd st)))
     = Some tt
  /\ servingStatus (snd (fst (Register r s st))) !! s =
     Some (if RaftState_eqb (raftState (snd st) r) Leader
           then SERVING else NOT_SERVING)
  /\ metrics (fst (fst (Register r s st))) =
     Some {| Metrics_status := RaftState_uint32 (raftState (snd st) r) |}.
Proof.
  destruct st as [hs w]. cbn [fst snd]. intros Hm Hk.
  rewrite (Register_fresh hs w r s m Hk Hm).
  cbn [fst snd registered metrics RegisterObserver NewObserver SetServingStatus
       Log raftObservers servingStatus].
  split; [reflexivity|]. split; [apply fin_maps.lookup_insert_eq|].
  split; [apply fin_maps.lookup_insert_eq|].
  split; [apply fin_maps.lookup_insert_eq|reflexivity].
Qed.

(** The goroutine taking [n] observations: the statuses of other
    services, the map, the observers and the counter stay. *)
Lemma run_observations (svc : raftService) (rest : list message) (n : nat) :
  forall (hs : HealthObserver) (w : world) (m : Metrics),
  metrics hs = Some m ->
  exists (hs' : HealthObserver) (w' : world) (m' : Metrics),
    run svc (repeat observation n ++ rest) (hs, w) = run svc rest (hs', w')
    /\ metrics hs' = Some m'
    /\ registered hs' = registered hs
    /\ raftObservers w' = raftObservers w
    /\ nextObserverID w' = nextObserverID w
    /\ raftState w' = raftState w
    /\ (forall s' : string, s' <> service svc ->
          servingStatus w' !! s' = servingStatus w !! s').
Proof.
  induction n as [|n IH]; intros hs w m Hm.
  - exists hs, w, m. repeat split; assumption.
  - cbn [repeat app run]. rewrite (updateStatus_metrics svc hs w m Hm).
    destruct (IH
      {| metrics :=
           Some {| Metrics_status := RaftState_uint32 (raftState w (raft svc)) |};
         registered := registered hs |}
      (SetServingStatus (service svc) (statusFor (raftState w (raft svc)))
         (Log (infoLine (service svc) "updating health status"
                 (statusFor (raftState w (raft svc)))) w))
      _ eq_refl)
      as (hs' & w' & m' & Hrun & Hm' & Hreg & Hobs & Hnext & Hst & Hother).
    exists hs', w', m'. split; [exact Hrun|]. split; [exact Hm'|].
    split; [exact Hreg|]. split; [exact Hobs|]. split; [exact Hnext|].
    split; [exact Hst|].
    intros s' Hs'. rewrite (Hother s' Hs'). cbn [SetServingStatus servingStatus Log].
    apply fin_maps.lookup_insert_ne. congruence.
Qed.

(** X13: once its [select] takes the stop, the goroutine of a service
    marks the service [NOT_SERVING], takes its observer off the raft
    node and returns, closing [done]; what arrives after the stop is
    never handled.  Without a stop it stays in its [select]. *)
Theorem run_until_stop (svc : raftService) (n : nat) (later : list message)
  (st : state) (m : Metrics) :
  metrics (fst st) = Some m ->
  run svc (repeat observation n ++ stop :: later) st =
  run svc (repeat observation n ++ [stop]) st
  /\ snd (run svc (repeat observation n ++ [stop]) st) = Return exited
  /\ servingStatus (snd (fst (run svc (repeat observation n ++ [stop]) st)))
       !! service svc = Some NOT_SERVING
  /\ raftObservers (snd (fst (run svc (repeat observation n ++ [stop]) st)))
       !! (raft svc, observer svc) = None
  /\ snd (run svc (repeat observation n) st) = Return waiting.
Proof.
  destruct st as [hs w]. cbn [fst]. intros Hm.
  destruct (run_observations svc (stop :: later) n hs w m Hm)
    as (hs1 & w1 & m1 & Hrun1 & _).
  destruct (run_observations svc [stop] n hs w m Hm)
    as (hs2 & w2 & m2 & Hrun2 & _).
  destruct (run_observations svc [] n hs w m Hm)
    as (hs3 & w3 & m3 & Hrun3 & _).
  rewrite app_nil_r in Hrun3.
  rewrite Hrun1, Hrun3.
  assert (Hsame : run svc (stop :: later) (hs1, w1) = run svc [stop] (hs2, w2)).
  { rewrite <- Hrun1, <- Hrun2. clear.
    revert hs w. induction n as [|n IH]; intros hs w; [reflexivity|].
    cbn [repeat app run]. destruct (updateStatus svc (hs, w)) as [[hs' w'] [u|v]].
    - apply IH.
    - reflexivity. }
  rewrite Hrun2. split; [exact Hsame|].
  cbn [run fst snd DeregisterObserver SetServingStatus Log raftObservers
       servingStatus].
  split; [reflexivity|]. split; [apply fin_maps.lookup_insert_eq|].
  split; [apply fin_maps.lookup_delete_eq|reflexivity].
Qed.

(** X14: [Deregister] of a pair that is not registered returns at once
    and changes nothing. *)
Theorem Deregister_unregistered (st : state) (r : nat) (s : string) (pending : nat) :
  registered (fst st) !! (r, s) = None ->
  Deregister r s pending st = (st, Return tt).
Proof.
  destruct st as [hs w]. cbn [fst]. intros Hk. unfold Deregister. rewrite Hk.
  rewrite (fin_maps.delete_id _ _ Hk). now rewrite HealthObserver_eta.
Qed.

(** [Deregister] of a registered pair, part by part. *)
Lemma Deregister_registered_parts (hs : HealthObserver) (w : world) (r : nat)
  (s : string) (pending : nat) (svc : raftService) (m : Metrics) :
  registered hs !! (r, s) = Some svc -> metrics hs = Some m ->
  exists (hs' : HealthObserver) (w' : world),
    Deregister r s pending (hs, w) = ((hs', w'), Return tt)
    /\ metrics hs' <> None
    /\ registered hs' = base.delete (r, s) (registered hs)
    /\ raftObservers w' = base.delete (raft svc, observer svc) (raftObservers w)
    /\ nextObserverID w' = nextObserverID w
    /\ servingStatus w' !! service svc = Some NOT_SERVING
    /\ (forall s' : string, s' <> service svc ->
          servingStatus w' !! s' = servingStatus w !! s').
Proof.
  intros Hk Hm. unfold Deregister. rewrite Hk.
  destruct (run_observations svc [stop] pending
              {| metrics := metrics hs; registered := base.delete (r, s) (registered hs) |}
              w m Hm)
    as (hs1 & w1 & m1 & Hrun & Hm1 & Hreg & Hobs & Hnext & _ & Hother).
  rewrite Hrun. cbn [run].
  eexists; eexists. split; [reflexivity|].
  cbn [DeregisterObserver SetServingStatus Log raftObservers servingStatus
       nextObserverID].
  split; [congruence|]. split; [exact Hreg|]. split; [now rewrite Hobs|].
  split; [exact Hnext|]. split; [apply fin_maps.lookup_insert_eq|].
  intros s' Hs'. rewrite <- (Hother s' Hs').
  apply fin_maps.lookup_insert_ne. congruence.
Qed.

(** X15: [Deregister] of a registered pair returns when the goroutine
    of the service is done: the pair is no longer registered, the
    observer of the service is off its raft node, and the service is
    [NOT_SERVING] in the health service, whatever the raft node's state. *)
Theorem Deregister_registered (st : state) (r : nat) (s : string)
  (pending : nat) (svc : raftService) (m : Metrics) :
  registered (fst st) !! (r, s) = Some svc -> metrics (fst st) = Some m ->
  snd (Deregister r s pending st) = Return tt
  /\ registered (fst (fst (Deregister r s pending st))) =
     base.delete (r, s) (registered (fst st))
  /\ raftObservers (snd (fst (Deregister r s pending st))) =
     base.delete (raft svc, observer svc) (raftObservers (snd st))
  /\ servingStatus (snd (fst (Deregister r s pending st))) !! service svc =
     Some NOT_SERVING.
Proof.
  destruct st as [hs w]. cbn [fst snd]. intros Hk Hm.
  destruct (Deregister_registered_parts hs w r s pending svc m Hk Hm)
    as (hs' & w' & HD & _ & Hreg & Hobs & _ & Hs & _).
  rewrite HD. cbn [fst snd]. auto.
Qed.

(** X16: [Register] of a new pair followed by [Deregister] of it gives
    back the map of registered services and the observers of the raft
    nodes as they were; the service is left [NOT_SERVING]. *)
Theorem Register_then_Deregister (st : state) (r : nat) (s : string)
  (pending : nat) (m : Metrics) :
  metrics (fst st) = Some m ->
  registered (fst st) !! (r, s) = None ->
  raftObservers (snd st) !! (r, S (nextObserverID (snd st))) = None ->
  snd (Deregister r s pending (fst (Register r s st))) = Return tt
  /\ registered (fst (fst (Deregister r s pending (fst (Register r s st))))) =
     registered (fst st)
  /\ raftObservers (snd (fst (Deregister r s pending (fst (Register r s st))))) =
     raftObservers (snd st)
  /\ servingStatus (snd (fst (Deregister r s pending (fst (Register r s st)))))
       !! s = Some NOT_SERVING.
Proof.
  destruct st as [hs w]. cbn [fst snd]. intros Hm Hk Hfresh.
  rewrite (Register_fresh hs w r s m Hk Hm). cbn [fst].
  match goal with
  | |- context [Deregister r s pending (?h, ?x)] =>
      destruct (Deregister_registered_parts h x r s pending
                  {| service := s; raft := r; observer := S (nextObserverID w) |}
                  {| Metrics_status := RaftState_uint32 (raftState w r) |}
                  (fin_maps.lookup_insert_eq _ _ _) eq_refl)
        as (hs' & w' & HD & _ & Hreg & Hobs & _ & Hs & _)
  end.
  rewrite HD. cbn [fst snd].
  split; [reflexivity|]. split.
  - rewrite Hreg. cbn [registered]. now apply fin_maps.delete_insert_id.
  - split; [|exact Hs].
    rewrite Hobs.
    cbn [raft observer RegisterObserver NewObserver SetServingStatus Log
         raftObservers snd].
    now apply fin_maps.delete_insert_id.
Qed.

(** ** What the calls keep *)

Lemma consistent_start (m : option Metrics) (w : world) :
  raftObservers w = base.empty ->
  consistent (NewRaftLeaderHealthObserver m, w).
Proof.
  intros Hw. unfold consistent. cbn [fst snd NewRaftLeaderHealthObserver registered].
  split; [|split].
  - intros r s svc H. now rewrite fin_maps.lookup_empty in H.
  - intros k1 k2 svc1 svc2 H. now rewrite fin_maps.lookup_empty in H.
  - intros r id. rewrite Hw, fin_maps.lookup_empty. split; [discriminate|].
    intros (s & svc & H & _). now rewrite fin_maps.lookup_empty in H.
Qed.

(** Only the map, the presence of metrics, the observers and the counter
    matter. *)
Lemma consistent_ext (st st' : state) :
  registered (fst st') = registered (fst st) ->
  (metrics (fst st) <> None -> metrics (fst st') <> None) ->
  raftObservers (snd st') = raftObservers (snd st) ->
  nextObserverID (snd st') = nextObserverID (snd st) ->
  consistent st -> consistent st'.
Proof.
  intros Hreg Hm Hobs Hnext (HA & HB & HC). unfold consistent.
  rewrite Hreg, Hobs, Hnext. split; [|split].
  - intros r s svc H. destruct (HA r s svc H) as (H1 & H2 & H3 & H4). auto.
  - exact HB.
  - exact HC.
Qed.

Lemma consistent_updateStatus (svc : raftService) (st : state) :
  consistent st -> consistent (fst (updateStatus svc st)).
Proof.
  destruct st as [hs w]. intros Hc.
  destruct (metrics hs) as [m|] eqn:Hm.
  - rewrite (updateStatus_metrics svc hs w m Hm).
    apply (consistent_ext (hs, w)); try reflexivity; [discriminate|exact Hc].
  - now rewrite (updateStatus_nil svc hs w Hm).
Qed.

Lemma consistent_Register (r : nat) (s : string) (st : state) :
  consistent st -> consistent (fst (Register r s st)).
Proof.
  destruct st as [hs w]. intros Hc.
  destruct (registered hs !! (r, s)) as [svc|] eqn:Hk.
  - now rewrite (Register_registered (hs, w) r s svc Hk).
  - destruct (metrics hs) as [m|] eqn:Hm.
    + rewrite (Register_fresh hs w r s m Hk Hm).
      destruct Hc as (HA & HB & HC). cbn [fst snd] in HA, HB, HC.
      unfold consistent.
      cbn [fst snd registered metrics RegisterObserver NewObserver
           SetServingStatus Log raftObservers nextObserverID].
      split; [|split].
      * intros r0 s0 svc0 H. apply fin_maps.lookup_insert_Some in H.
        destruct H as [[Hkey <-]|[Hne H]].
        -- injection Hkey as <- <-. cbn [raft service observer].
           split; [reflexivity|]. split; [reflexivity|].
           split; [lia|discriminate].
        -- destruct (HA r0 s0 svc0 H) as (H1 & H2 & H3 & _).
           split; [exact H1|]. split; [exact H2|]. split; [lia|discriminate].
      * intros k1 k2 svc1 svc2 H1 H2 Hobs.
        apply fin_maps.lookup_insert_Some in H1, H2.
        destruct H1 as [[Hk1 <-]|[Hn1 H1]]; destruct H2 as [[Hk2 <-]|[Hn2 H2]].
        -- congruence.
        -- destruct k2 as [r2 s2]. destruct (HA r2 s2 svc2 H2) as (_ & _ & Hle & _).
           cbn in Hobs. lia.
        -- destruct k1 as [r1 s1]. destruct (HA r1 s1 svc1 H1) as (_ & _ & Hle & _).
           cbn in Hobs. lia.
        -- exact (HB k1 k2 svc1 svc2 H1 H2 Hobs).
      * intros r0 id0. split.
        -- intros H. apply fin_maps.lookup_insert_Some in H.
           destruct H as [[Hkey _]|[Hne H]].
           ++ injection Hkey as <- <-. exists s. eexists.
              split; [apply fin_maps.lookup_insert_eq|reflexivity].
           ++ apply HC in H. destruct H as (s0 & svc0 & H & Hid).
              exists s0, svc0. split; [|exact Hid].
              rewrite fin_maps.lookup_insert_ne; [exact H|]. congruence.
        -- intros (s0 & svc0 & H & Hid).
           apply fin_maps.lookup_insert_Some in H.
           destruct H as [[Hkey <-]|[Hne H]].
           ++ injection Hkey as <- <-. cbn in Hid. subst id0.
              apply fin_maps.lookup_insert_eq.
           ++ destruct (HA r0 s0 svc0 H) as (_ & _ & Hle & _).
              rewrite fin_maps.lookup_insert_ne.
              ** apply HC. now exists s0, svc0.
              ** intros Heq. injection Heq as _ Heq. lia.
    + rewrite (Register_without_metrics (hs, w) r s Hm Hk).
      apply (consistent_ext (hs, w)); try reflexivity; [auto|exact Hc].
Qed.

Lemma consistent_Deregister (r : nat) (s : string) (pending : nat) (st : state) :
  consistent st -> consistent (fst (Deregister r s pending st)).
Proof.
  destruct st as [hs w]. intros Hc.
  destruct (registered hs !! (r, s)) as [svc|] eqn:Hk.
  - destruct Hc as (HA & HB & HC). cbn [fst snd] in HA, HB, HC.
    destruct (HA r s svc Hk) as (Hr & Hs & Hle & Hm).
    destruct (metrics hs) as [m|] eqn:Hm'; [|now elim Hm].
    destruct (Deregister_registered_parts hs w r s pending svc m Hk Hm')
      as (hs' & w' & HD & Hm1 & Hreg & Hobs & Hnext & _).
    rewrite HD. unfold consistent. cbn [fst snd]. rewrite Hreg, Hobs, Hnext.
    split; [|split].
    + intros r0 s0 svc0 H. apply fin_maps.lookup_delete_Some in H.
      destruct H as [_ H]. destruct (HA r0 s0 svc0 H) as (H1 & H2 & H3 & _). auto.
    + intros k1 k2 svc1 svc2 H1 H2.
      apply fin_maps.lookup_delete_Some in H1, H2.
      exact (HB k1 k2 svc1 svc2 (proj2 H1) (proj2 H2)).
    + intros r0 id0. split.
      * intros H. apply fin_maps.lookup_delete_Some in H. destruct H as [Hne H].
        apply HC in H. destruct H as (s0 & svc0 & H & Hid).
        exists s0, svc0. split; [|exact Hid].
        apply fin_maps.lookup_delete_Some. split; [|exact H].
        intros Heq. injection Heq as <- <-.
        rewrite Hk in H. injection H as <-. subst id0. now elim Hne; rewrite Hr.
      * intros (s0 & svc0 & H & Hid).
        apply fin_maps.lookup_delete_Some in H. destruct H as [Hne H].
        apply fin_maps.lookup_delete_Some. split.
        -- intros Heq. injection Heq as Hr0 Hid0. elim Hne.
           apply (HB (r, s) (r0, s0) svc svc0 Hk H). congruence.
        -- apply HC. now exists s0, svc0.
  - now rewrite (Deregister_unregistered (hs, w) r s pending Hk).
Qed.

Lemma consistent_perform (st : state) (a : action) :
  consistent st -> consistent (perform st a).
Proof.
  intros Hc. destruct a as [r s|r s pending|r s|r to]; cbn [perform].
  - now apply consistent_Register.
  - now apply consistent_Deregister.
  - destruct (registered (fst st) !! (r, s)) as [svc|]; [|exact Hc].
    cbn [run]. pose proof (consistent_updateStatus svc st Hc) as H.
    destruct (updateStatus svc st) as [st1 [u|v]]; exact H.
  - apply (consistent_ext st); try reflexivity; [auto|exact Hc].
Qed.

(** X17: whatever calls of [Register] and [Deregister], observations
    taken and changes of the raft nodes follow the making of an
    observer, the observers held by the raft nodes are exactly those of
    the registered services, one for each: none is left behind by
    [Deregister], none is registered twice, and every registered service
    is filed under its own raft node and name. *)
Theorem observers_follow_registered (m : option Metrics) (w : world)
  (actions : list action) :
  raftObservers w = base.empty ->
  consistent (performAll (NewRaftLeaderHealthObserver m, w) actions).
Proof.
  intros Hw. unfold performAll.
  assert (H : consistent (NewRaftLeaderHealthObserver m, w))
    by now apply consistent_start.
  revert H. generalize (NewRaftLeaderHealthObserver m, w).
  induction actions as [|a actions IH]; intros st Hc; [exact Hc|].
  cbn [fold_left]. apply IH. now apply consistent_perform.
Qed.

(** X18: when the goroutine of a registered service takes an
    observation, the health service gets the service as [SERVING] if its
    raft node is the leader and as [NOT_SERVING] if it is not, and the
    gauge gets the number of the raft state. *)
Theorem observation_sets_status (m : option Metrics) (w : world)
  (actions : list action) (r : nat) (s : string) (svc : raftService) :
  raftObservers w = base.empty ->
  registered (fst (performAll (NewRaftLeaderHealthObserver m, w) actions)) !! (r, s)
    = Some svc ->
  servingStatus
    (snd (perform (performAll (NewRaftLeaderHealthObserver m, w) actions)
            (takeObservation r s))) !! s =
    Some (if RaftState_eqb
               (raftState (snd (performAll (NewRaftLeaderHealthObserver m, w) actions)) r)
               Leader
          then SERVING else NOT_SERVING)
  /\ metrics
       (fst (perform (performAll (NewRaftLeaderHealthObserver m, w) actions)
               (takeObservation r s))) =
     Some {| Metrics_status :=
               RaftState_uint32
                 (raftState (snd (performAll (NewRaftLeaderHealthObserver m, w) actions)) r) |}.
Proof.
  intros Hw Hk.
  pose proof (observers_follow_registered m w actions Hw) as (HA & _).
  destruct (performAll (NewRaftLeaderHealthObserver m, w) actions) as [hs w1].
  cbn [fst snd] in *. destruct (HA r s svc Hk) as (Hr & Hs & _ & Hm).
  destruct (metrics hs) as [m1|] eqn:Hm1; [|now elim Hm].
  cbn [perform fst]. rewrite Hk. cbn [run].
  rewrite (updateStatus_metrics svc hs w1 m1 Hm1). cbn [fst snd metrics].
  rewrite Hr, Hs. split; [|reflexivity].
  cbn [SetServingStatus servingStatus]. apply fin_maps.lookup_insert_eq.
Qed.

(** ** Concrete runs of the observer *)

Lemma Register_again_witness :
  snd (Register 1 "metastore" started) = Return tt
  /\ Register 1 "metastore" (fst (Register 1 "metastore" started)) =
     (fst (Register 1 "metastore" started), Return tt).
Proof.
  assert (H : snd (Register 1 "metastore" started) = Return tt) by reflexivity.
  split; [exact H|]. exact (Register_again started 1 "metastore" H).
Defined.

Lemma Register_without_metrics_witness :
  metrics (fst startedWithoutMetrics) = None
  /\ registered (fst startedWithoutMetrics) !! (1%nat, "metastore") = None
  /\ snd (Register 1 "metastore" startedWithoutMetrics) = Panic nilDereference.
Proof.
  assert (H : registered (fst startedWithoutMetrics) !! (1%nat, "metastore") = None)
    by reflexivity.
  split; [reflexivity|]. split; [exact H|].
  exact (f_equal snd
           (Register_without_metrics startedWithoutMetrics 1 "metastore" eq_refl H)).
Defined.

Lemma Register_new_witness :
  metrics (fst started) = Some {| Metrics_status := 0 |}
  /\ registered (fst started) !! (1%nat, "metastore") = None
  /\ servingStatus (snd (fst (Register 1 "metastore" started))) !! "metastore" =
     Some SERVING.
Proof.
  assert (H : registered (fst started) !! (1%nat, "metastore") = None)
    by reflexivity.
  split; [reflexivity|]. split; [exact H|].
  exact (proj1 (proj2 (proj2 (proj2
           (Register_new started 1 "metastore" {| Metrics_status := 0 |}
              eq_refl H))))).
Defined.

Lemma run_until_stop_witness :
  metrics (fst started) = Some {| Metrics_status := 0 |}
  /\ run {| service := "metastore"; raft := 1; observer := 1 |}
       (repeat observation 2 ++ stop :: [observation]) started =
     run {| service := "metastore"; raft := 1; observer := 1 |}
       (repeat observation 2 ++ [stop]) started.
Proof.
  split; [reflexivity|].
  exact (proj1 (run_until_stop {| service := "metastore"; raft := 1; observer := 1 |}
                  2 [observation] started {| Metrics_status := 0 |} eq_refl)).
Defined.

Lemma Deregister_unregistered_witness :
  registered (fst started) !! (2%nat, "metastore") = None
  /\ Deregister 2 "metastore" 1 started = (started, Return tt).
Proof.
  assert (H : registered (fst started) !! (2%nat, "metastore") = None)
    by reflexivity.
  split; [exact H|]. exact (Deregister_unregistered started 2 "metastore" 1 H).
Defined.

Lemma Deregister_registered_witness :
  registered (fst (fst (Register 1 "metastore" started))) !! (1%nat, "metastore") =
    Some {| service := "metastore"; raft := 1; observer := 1 |}
  /\ metrics (fst (fst (Register 1 "metastore" started))) =
     Some {| Metrics_status := 2 |}
  /\ snd (Deregister 1 "metastore" 1 (fst (Register 1 "metastore" started))) =
     Return tt.
Proof.
  assert (H : registered (fst (fst (Register 1 "metastore" started)))
                !! (1%nat, "metastore") =
              Some {| service := "metastore"; raft := 1; observer := 1 |})
    by (vm_compute; reflexivity).
  split; [exact H|]. split; [reflexivity|].
  exact (proj1 (Deregister_registered (fst (Register 1 "metastore" started))
                  1 "metastore" 1 _ {| Metrics_status := 2 |} H eq_refl)).
Defined.

Lemma Register_then_Deregister_witness :
  metrics (fst started) = Some {| Metrics_status := 0 |}
  /\ registered (fst started) !! (1%nat, "metastore") = None
  /\ raftObservers (snd started) !! (1%nat, S (nextObserverID (snd started))) = None
  /\ snd (Deregister 1 "metastore" 0 (fst (Register 1 "metastore" started))) =
     Return tt.
Proof.
  assert (H1 : registered (fst started) !! (1%nat, "metastore") = None)
    by reflexivity.
  assert (H2 : raftObservers (snd started)
                 !! (1%nat, S (nextObserverID (snd started))) = None)
    by reflexivity.
  split; [reflexivity|]. split; [exact H1|]. split; [exact H2|].
  exact (proj1 (Register_then_Deregister started 1 "metastore" 0
                  {| Metrics_status := 0 |} eq_refl H1 H2)).
Defined.

Lemma observers_follow_registered_witness :
  raftObservers (quiet twoNodes) = base.empty
  /\ consistent
       (performAll (NewRaftLeaderHealthObserver (Some {| Metrics_status := 0 |}),
                    quiet twoNodes)
          [callRegister 1 "metastore"; callRegister 2 "metastore";
           raftChanges 2 Leader; takeObservation 2 "metastore";
           callDeregister 1 "metastore" 1]).
Proof.
  split; [reflexivity|].
  exact (observers_follow_registered (Some {| Metrics_status := 0 |})
           (quiet twoNodes) _ eq_refl).
Defined.

Lemma observation_sets_status_witness :
  raftObservers (quiet twoNodes) = base.empty
  /\ registered
       (fst (performAll (NewRaftLeaderHealthObserver (Some {| Metrics_status := 0 |}),
                         quiet twoNodes)
               [callRegister 2 "metastore"; raftChanges 2 Leader]))
       !! (2%nat, "metastore") =
     Some {| service := "metastore"; raft := 2; observer := 1 |}
  /\ servingStatus
       (snd (perform
               (performAll (NewRaftLeaderHealthObserver (Some {| Metrics_status := 0 |}),
                            quiet twoNodes)
                  [callRegister 2 "metastore"; raftChanges 2 Leader])
               (takeObservation 2 "metastore"))) !! "metastore" =
     Some SERVING.
Proof.
  assert (H : registered
       (fst (performAll (NewRaftLeaderHealthObserver (Some {| Metrics_status := 0 |}),
                         quiet twoNodes)
               [callRegister 2 "metastore"; raftChanges 2 Leader]))
       !! (2%nat, "metastore") =
     Some {| service := "metastore"; raft := 2; observer := 1 |})
    by (vm_compute; reflexivity).
  split; [reflexivity|]. split; [exact H|].
  exact (proj1 (observation_sets_status (Some {| Metrics_status := 0 |})
                  (quiet twoNodes)
                  [callRegister 2 "metastore"; raftChanges 2 Leader]
                  2 "metastore" _ eq_refl H)).
Defined.

End raftleaderFacts.

(** * Concrete runs of the executor and the aggregator *)

Lemma queryTree_entries_error_witness :
  entriesError (ds Runs.runNoEntries) = Some Runs.noEntries
  /\ queryTree Runs.runNoEntries PathTree.queryA = ((None, Some Runs.noEntries), []).
Proof.
  split; [reflexivity|].
  exact (queryTree_entries_error Runs.runNoEntries PathTree.queryA Runs.noEntries
           eq_refl).
Defined.

Lemma queryTree_schema_error_witness :
  entriesError (ds Runs.runNoColumn) = None
  /\ schemaError (ds Runs.runNoColumn) = Some Runs.noColumn
  /\ queryTree Runs.runNoColumn PathTree.queryA =
     ((None, Some Runs.noColumn), [OpenEntries; CloseEntries]).
Proof.
  split; [reflexivity|]. split; [reflexivity|].
  exact (queryTree_schema_error Runs.runNoColumn PathTree.queryA Runs.noColumn
           eq_refl eq_refl).
Defined.

Lemma queryTree_resolver_error_witness :
  entriesError (ds Runs.runNoSymbols) = None
  /\ schemaError (ds Runs.runNoSymbols) = None
  /\ rowsError (ds Runs.runNoSymbols) = None
  /\ symbols (ds Runs.runNoSymbols) (rows (ds Runs.runNoSymbols)) =
     inr Runs.noSymbols
  /\ fst (queryTree Runs.runNoSymbols PathTree.queryA) = (None, Some Runs.noSymbols).
Proof.
  repeat (split; [reflexivity|]).
  exact (f_equal fst
           (queryTree_resolver_error Runs.runNoSymbols PathTree.queryA
              Runs.noSymbols eq_refl eq_refl eq_refl eq_refl)).
Defined.

Lemma queryTree_adds_every_row_witness :
  entriesError (ds PathTree.runCut) = None
  /\ schemaError (ds PathTree.runCut) = None
  /\ filter isAddSamples (snd (queryTree PathTree.runCut PathTree.queryA)) =
     addSamplesCalls (rows (ds PathTree.runCut)).
Proof.
  repeat (split; [reflexivity|]).
  exact (proj1 (queryTree_adds_every_row PathTree.runCut PathTree.queryA
                  eq_refl eq_refl)).
Defined.

Lemma build_ignores_later_queries_witness :
  map TreeReport_Tree [PathTree.reportB] = map TreeReport_Tree [PathTree.reportB1]
  /\ build (E := PathTree.engine)
       (aggregateAll (newTreeAggregator tt)
          (map treeReport [PathTree.reportA; PathTree.reportB])) =
     build (E := PathTree.engine)
       (aggregateAll (newTreeAggregator tt)
          (map treeReport [PathTree.reportA; PathTree.reportB1])).
Proof.
  split; [reflexivity|].
  exact (build_ignores_later_queries (E := PathTree.engine) tt PathTree.reportA
           [PathTree.reportB] [PathTree.reportB1] eq_refl).
Defined.
